(** * metis-wizard: the namelist builder and the partition runner

    A shallow embedding of [metis_wizard/metis_wizard.py] (version 2.1.0):
    the [MetisNamelist] setters, [prepare_namelist], the [MetisPartitioner]
    class and the [main] entry point.

    Python objects the program only passes around are modelled by what the
    program can observe of them:
    - an [f90nml.Namelist] (an [OrderedDict] whose string keys are lowered
      on every access) is an association list of its groups in the order of
      the file; a group name that the file repeats occurs as often, and
      subscripting the document with it gives a [Cogroup];
    - the file system is a finite map from a path to what it holds: a
      directory, a file that [f90nml.read] parses to a document or cannot
      parse, or the file that [nml.write] produced from a document; what
      f90nml reads back from its own output is a function that the world
      carries, since writer and parser are not inverse on every document;
    - the terminal is three queues of scripted answers, one per kind of
      [questionary] prompt; an exhausted queue answers [None], which is what
      [ask()] returns when the prompt is interrupted;
    - an exception is a value of [exn]; a raising call returns [Err e] and
      the world as it was when the exception left the function.
    Strings are ASCII text. *)

From Stdlib Require Import ZArith String Ascii List Bool Lia SpecFloat.
From stdpp Require Import base option gmap strings.
Import ListNotations.

Local Open Scope string_scope.
Local Open Scope list_scope.
Local Open Scope Z_scope.

(** ** Python values and exceptions *)

Module Py.

(** The scalars a namelist field can hold. A Python [float] is an IEEE 754
    binary64 number. *)
Inductive value : Type :=
| PyInt (z : Z)
| PyFloat (f : spec_float)
| PyStr (s : string)
| PyBool (b : bool)
| PyNone.

Inductive exn : Type :=
| KeyError (key : string)
| FileNotFoundError (path : string)
| IsADirectoryError (path : string)
| ParserError (path : string)
| ValueError (literal : string)
| TypeError
| MetisPartitionerError (bin : string)
| CalledProcessError (returncode : Z) (cmd : string).

Inductive result (A : Type) : Type :=
| Ok (a : A)
| Err (e : exn).
Arguments Ok {A} a.
Arguments Err {A} e.

Definition bind {A B} (r : result A) (k : A -> result B) : result B :=
  match r with
  | Ok a => k a
  | Err e => Err e
  end.

Definition is_ok {A} (r : result A) : bool :=
  match r with Ok _ => true | Err _ => false end.

(** [n] is what the spec calls a positive integer. *)
Definition is_positive_int (v : value) : bool :=
  match v with
  | PyInt z => 0 <? z
  | _ => false
  end.

(** [str.lower()]. *)
Definition lower_ascii (c : ascii) : ascii :=
  let n := nat_of_ascii c in
  if ((65 <=? n) && (n <=? 90))%nat then ascii_of_nat (n + 32) else c.

Fixpoint lower (s : string) : string :=
  match s with
  | EmptyString => EmptyString
  | String c r => String (lower_ascii c) (lower r)
  end.

(** *** [int(x)] on the elements [main] converts

    An element of [n_part] is a [str] (a command-line argument, or one
    character of an entered text) or an [int] (a checkbox choice). *)
Inductive item : Type :=
| CStr (s : string)
| CInt (z : Z).

(** The white space [int()] strips from an ASCII literal: tab, line feed,
    vertical tab, form feed, carriage return and space. *)
Definition is_space (c : ascii) : bool :=
  let n := nat_of_ascii c in
  (((9 <=? n) && (n <=? 13)) || (n =? 32))%nat.

Definition digit_of (c : ascii) : option Z :=
  let n := Z.of_nat (nat_of_ascii c) in
  if (48 <=? n) && (n <=? 57) then Some (n - 48) else None.

Definition is_digit (c : ascii) : bool :=
  match digit_of c with Some _ => true | None => false end.

Fixpoint lstrip (s : list ascii) : list ascii :=
  match s with
  | [] => []
  | c :: r => if is_space c then lstrip r else s
  end.

Definition strip (s : list ascii) : list ascii :=
  rev (lstrip (rev (lstrip s))).

(** Decimal digits, with single underscores allowed between two digits. *)
Fixpoint parse_digits (acc : Z) (after_digit : bool) (s : list ascii)
  : option Z :=
  match s with
  | [] => if after_digit then Some acc else None
  | c :: r =>
      match digit_of c with
      | Some d => parse_digits (10 * acc + d) true r
      | None =>
          if Ascii.eqb c "_" && after_digit then parse_digits acc false r
          else None
      end
  end.

(** CPython's default limit on the digits of a decimal literal. *)
Definition int_max_str_digits : nat := 4300.

Definition int_of_str (s : string) : result Z :=
  let cs := strip (list_ascii_of_string s) in
  let parsed :=
    match cs with
    | "+"%char :: r => parse_digits 0 false r
    | "-"%char :: r => option_map Z.opp (parse_digits 0 false r)
    | _ => parse_digits 0 false cs
    end in
  match parsed with
  | Some z =>
      if (List.length (List.filter is_digit cs) <=? int_max_str_digits)%nat
      then Ok z else Err (ValueError s)
  | None => Err (ValueError s)
  end.

Definition int (x : item) : result Z :=
  match x with
  | CInt z => Ok z
  | CStr s => int_of_str s
  end.

(** [[int(n) for n in xs]]: the first failing conversion raises. *)
Fixpoint int_each (xs : list item) : result (list Z) :=
  match xs with
  | [] => Ok []
  | x :: r =>
      bind (int x) (fun z => bind (int_each r) (fun zs => Ok (z :: zs)))
  end.

(** Iterating a [str] yields its characters as one-character strings. *)
Definition chars (s : string) : list item :=
  map (fun c => CStr (String c EmptyString)) (list_ascii_of_string s).

End Py.
Import Py.

(** ** [OrderedDict] and [f90nml.Namelist] *)

Module OrderedDict.
Section Ops.
Context {V : Type}.

Fixpoint get (k : string) (d : list (string * V)) : option V :=
  match d with
  | [] => None
  | (k', v) :: r => if String.eqb k k' then Some v else get k r
  end.

(** [d[k] = v]: an existing key keeps its place, a new key goes last. *)
Fixpoint set (k : string) (v : V) (d : list (string * V))
  : list (string * V) :=
  match d with
  | [] => [(k, v)]
  | (k', v') :: r =>
      if String.eqb k k' then (k, v) :: r else (k', v') :: set k v r
  end.

End Ops.
End OrderedDict.

Module Namelist.

(** A group of a namelist: variable name to value. *)
Definition group : Type := list (string * value).

(** A namelist document: its groups under their names, in the order of the
    file. A name that the file repeats occurs as often here; f90nml keeps
    such groups as a cogroup. *)
Definition t : Type := list (string * group).

(** The groups of the document under one name, in order. *)
Fixpoint groups_named (nml : t) (key : string) : list group :=
  match nml with
  | [] => []
  | (k, g) :: r =>
      if String.eqb key k then g :: groups_named r key
      else groups_named r key
  end.

(** What [nml[key]] evaluates to: the group under the name, or for a
    repeated name the [Cogroup], a list of the groups. *)
Inductive item : Type :=
| Group (g : group)
| Cogroup (gs : list group).

(** [nml[key]] *)
Definition getitem (nml : t) (key : string) : result item :=
  match groups_named nml (lower key) with
  | [] => Err (KeyError (lower key))
  | [g] => Ok (Group g)
  | gs => Ok (Cogroup gs)
  end.

(** [nml[grp][var] = v]: the group object found under [grp] is updated in
    place, so the document holds the updated group at the same key. On a
    [Cogroup] the subscript [var] is a string used as a list index, which
    raises [TypeError]. *)
Definition setitem2 (grp var : string) (v : value) (nml : t) : result t :=
  bind (getitem nml grp) (fun it =>
    match it with
    | Group g =>
        Ok (OrderedDict.set (lower grp) (OrderedDict.set (lower var) v g) nml)
    | Cogroup _ => Err TypeError
    end).

(** The value stored under [grp.var], if any, in the first group of that
    name (no key lowering: this reads the stored keys). *)
Definition field (nml : t) (grp var : string) : option value :=
  match OrderedDict.get grp nml with
  | Some g => OrderedDict.get var g
  | None => None
  end.

(** The document has a group [grp], at least once. *)
Definition has_group (nml : t) (grp : string) : bool :=
  match OrderedDict.get grp nml with Some _ => true | None => false end.

(** The document has the group [grp], once: [nml[grp]] is a group. *)
Definition is_group (nml : t) (grp : string) : bool :=
  match groups_named nml grp with [_] => true | _ => false end.

End Namelist.

(** ** The world: files, the observable trace, and the scripted terminal *)

Inductive log_msg : Type :=
| MsgRotatedDetected
| MsgRotatingBy (alpha beta gamma : value)
| MsgCavityEnabled
| MsgInteractiveMode
| MsgHighlighted
| MsgSelectedPartitions
| MsgSelected (n : item)
| MsgExiting
| MsgBeginning
| MsgMeshPath (p : string)
| MsgSchemes (k : nat)
| MsgPartitionScheme (n : Z)
| MsgNamelistWritten (bin : string)
| MsgPartitioning (bin : string)
| MsgPartitioned (bin : string) (n : value).

Inductive io_event : Type :=
| IoLog (m : log_msg)
| IoReadBundled
| IoRead (path : string)
| IoWrite (path : string) (doc : Namelist.t)
| IoSpawn (cmd : string) (returncode : Z).

(** What a path of the disk holds: a directory, a file that f90nml cannot
    read as a namelist, a file that [f90nml.read] parses to a document, or
    the file that [nml.write] produced from a document. *)
Inductive node : Type :=
| Dir
| Unparsable
| Parses (doc : Namelist.t)
| Written (doc : Namelist.t).

(** [reads_back] is the part of the installed f90nml library that the
    program relies on without seeing it: the document [f90nml.read] parses
    from a file that [nml.write] produced, if it parses at all. Writer and
    parser are not inverse on every document. *)
Record world : Type := World {
  files : gmap string node;
  trace : list io_event;
  checkbox_answers : list (option (list Z));
  confirm_answers : list (option bool);
  text_answers : list (option string);
  reads_back : Namelist.t -> option Namelist.t
}.

Definition with_files (fs : gmap string node) (w : world) : world :=
  World fs (trace w) (checkbox_answers w) (confirm_answers w) (text_answers w)
        (reads_back w).

Definition emit (e : io_event) (w : world) : world :=
  World (files w) (trace w ++ [e]) (checkbox_answers w) (confirm_answers w)
        (text_answers w) (reads_back w).

Definition with_checkbox (q : list (option (list Z))) (w : world) : world :=
  World (files w) (trace w) q (confirm_answers w) (text_answers w)
        (reads_back w).

Definition with_confirm (q : list (option bool)) (w : world) : world :=
  World (files w) (trace w) (checkbox_answers w) q (text_answers w)
        (reads_back w).

Definition with_text (q : list (option string)) (w : world) : world :=
  World (files w) (trace w) (checkbox_answers w) (confirm_answers w) q
        (reads_back w).

(** A computation that may raise, in a world it may change. *)
Definition M (A : Type) : Type := world -> result A * world.

Definition ret {A} (a : A) : M A := fun w => (Ok a, w).

Definition raise {A} (e : exn) : M A := fun w => (Err e, w).

Definition bindM {A B} (m : M A) (k : A -> M B) : M B :=
  fun w =>
    match m w with
    | (Ok a, w') => k a w'
    | (Err e, w') => (Err e, w')
    end.

Definition lift {A} (r : result A) : M A := fun w => (r, w).

Declare Scope prog_scope.
Delimit Scope prog_scope with prog.
Notation "x <- m ;; k" := (bindM m (fun x => k))
  (at level 100, m at next level, right associativity) : prog_scope.
Notation "m ;; k" := (bindM m (fun _ => k))
  (at level 100, right associativity) : prog_scope.

(** [for x in xs: body(x)] *)
Fixpoint for_each {A} (xs : list A) (body : A -> M unit) : M unit :=
  match xs with
  | [] => ret tt
  | x :: r => bindM (body x) (fun _ => for_each r body)
  end.

(** [logger.info], [logger.success] *)
Definition log (m : log_msg) : M unit := fun w => (Ok tt, emit (IoLog m) w).

(** [questionary.checkbox(...).ask()] *)
Definition questionary_checkbox : M (option (list Z)) :=
  fun w =>
    match checkbox_answers w with
    | [] => (Ok None, w)
    | a :: q => (Ok a, with_checkbox q w)
    end.

(** [questionary.confirm(...).ask()] *)
Definition questionary_confirm : M (option bool) :=
  fun w =>
    match confirm_answers w with
    | [] => (Ok None, w)
    | a :: q => (Ok a, with_confirm q w)
    end.

(** [questionary.text(...).ask()] *)
Definition questionary_text : M (option string) :=
  fun w =>
    match text_answers w with
    | [] => (Ok None, w)
    | a :: q => (Ok a, with_text q w)
    end.

(** What [f90nml.read] makes of what a path holds. *)
Definition read_node (reads_back : Namelist.t -> option Namelist.t)
  (path : string) (n : node) : result Namelist.t :=
  match n with
  | Dir => Err (IsADirectoryError path)
  | Unparsable => Err (ParserError path)
  | Parses doc => Ok doc
  | Written doc =>
      match reads_back doc with
      | Some doc' => Ok doc'
      | None => Err (ParserError path)
      end
  end.

(** [f90nml.read(path)] *)
Definition f90nml_read (path : string) : M Namelist.t :=
  fun w =>
    (match files w !! path with
     | Some n => read_node (reads_back w) path n
     | None => Err (FileNotFoundError path)
     end,
     emit (IoRead path) w).

(** [nml.write(path, force=True)]. The write itself is taken to succeed:
    the working directory can be written to and holds no directory of that
    name. *)
Definition nml_write (nml : Namelist.t) (path : string) : M unit :=
  fun w =>
    (Ok tt,
     emit (IoWrite path nml)
       (with_files (<[path := Written nml]> (files w)) w)).

(** ** The program *)

Record FesomMesh : Type := { path : string }.

Module MetisNamelist.

(** [self["paths"]["meshpath"] = mesh_path] *)
Definition set_mesh (mesh_path : string) (self : Namelist.t)
  : result Namelist.t :=
  Namelist.setitem2 "paths" "meshpath" (PyStr mesh_path) self.

(** [self["machine"]["n_levels"] = 1; self["machine"]["n_part"] = n_part] *)
Definition set_partitioning (n_part : value) (self : Namelist.t)
  : result Namelist.t :=
  bind (Namelist.setitem2 "machine" "n_levels" (PyInt 1) self)
       (Namelist.setitem2 "machine" "n_part" n_part).

End MetisNamelist.

Record MetisPartitioner : Type := { bin : string }.

Definition _BIN : string := "fesom_ini".

(** [bin or self._BIN] *)
Definition bin_or_default (bin : option string) : string :=
  match bin with
  | None => _BIN
  | Some "" => _BIN
  | Some b => b
  end.

(** Truthiness of what [shutil.which] returns. *)
Definition found (r : option string) : bool :=
  match r with
  | None => false
  | Some "" => false
  | Some _ => true
  end.

(** [if alpha is not None: nml[grp][var] = alpha] *)
Definition set_if_given (grp var : string) (v : option value)
  (nml : Namelist.t) : result Namelist.t :=
  match v with
  | Some a => Namelist.setitem2 grp var a nml
  | None => Ok nml
  end.

(** Lines 153-162 of [prepare_namelist], after the template is loaded and
    the mesh and the partition count are set. *)
Definition apply_options (alpha beta gamma : option value) (use_cavity : bool)
  (nml : Namelist.t) : result Namelist.t :=
  bind (set_if_given "geometry" "alphaeuler" alpha nml) (fun nml =>
  bind (set_if_given "geometry" "betaeuler" beta nml) (fun nml =>
  bind (set_if_given "geometry" "gammaeuler" gamma nml) (fun nml =>
  if use_cavity then
    bind (Namelist.setitem2 "ale_def" "use_partial_cell" (PyBool true) nml)
      (fun nml =>
    bind (Namelist.setitem2 "run_config" "use_cavity" (PyBool true) nml)
      (fun nml =>
    Namelist.setitem2 "run_config" "use_cavity_partial_cell" (PyBool true) nml))
  else Ok nml))).

(** Lines 151-163: everything [prepare_namelist] does to the loaded
    template. *)
Definition apply_all (mesh : FesomMesh) (n_part : value)
  (alpha beta gamma : option value) (use_cavity : bool) (nml : Namelist.t)
  : result Namelist.t :=
  bind (MetisNamelist.set_mesh (path mesh) nml) (fun nml =>
  bind (MetisNamelist.set_partitioning n_part nml) (fun nml =>
  apply_options alpha beta gamma use_cavity nml)).

Section Program.

(** The environment of the process: [shutil.which] on the current search
    path, the partitioner the shell runs for a command (its exit status and
    what it leaves on disk), and the namelist parsed from the template
    bundled with the package. *)
Variable which : string -> option string.
Variable child : string -> gmap string node -> Z * gmap string node.
Variable bundled : Namelist.t.

Local Open Scope prog_scope.

(** [MetisPartitioner.__init__] *)
Definition MetisPartitioner_init (bin : option string) : M MetisPartitioner :=
  let b := bin_or_default bin in
  if found (which b) then ret {| bin := b |}
  else raise (MetisPartitionerError b).

(** [f90nml.reads(read_namelist_config())] *)
Definition read_bundled : M Namelist.t :=
  fun w => (Ok bundled, emit IoReadBundled w).

Definition prepare_namelist (mesh : FesomMesh) (n_part : value)
  (alpha beta gamma : option value) (use_cavity : bool)
  (namelist_path : option string) : M Namelist.t :=
  nml <- match namelist_path with
         | Some p => f90nml_read p
         | None => read_bundled
         end ;;
  lift (apply_all mesh n_part alpha beta gamma use_cavity nml).

(** [subprocess.run(cmd, shell=True, check=True)] *)
Definition subprocess_run (cmd : string) : M unit :=
  fun w =>
    let (rc, fs) := child cmd (files w) in
    let w' := emit (IoSpawn cmd rc) (with_files fs w) in
    if rc =? 0 then (Ok tt, w') else (Err (CalledProcessError rc cmd), w').

Definition partition_mesh (self : MetisPartitioner) (mesh : FesomMesh)
  (n_part : value) (alpha beta gamma : option value) (use_cavity : bool)
  (namelist_path : option string) : M unit :=
  nml <- prepare_namelist mesh n_part alpha beta gamma use_cavity
           namelist_path ;;
  nml_write nml "namelist.config" ;;
  log (MsgNamelistWritten (bin self)) ;;
  log (MsgPartitioning (bin self)) ;;
  subprocess_run (bin self) ;;
  log (MsgPartitioned (bin self) n_part).

(** [n_part += questionary.text(...).ask()] *)
Definition iadd (n_part : option (list item)) (t : option string)
  : result (option (list item)) :=
  match n_part, t with
  | Some l, Some s => Ok (Some (l ++ chars s))
  | _, _ => Err TypeError
  end.

(** The [while questionary.confirm(...).ask():] loop of lines 221-226, by
    recursion on the answers still to come: each turn takes one. *)
Fixpoint add_custom (answers : list (option bool))
  (n_part : option (list item)) (w : world)
  : result (option (list item)) * world :=
  match answers with
  | [] => (Ok n_part, w)
  | Some true :: rest =>
      (t <- questionary_text ;;
       n_part <- lift (iadd n_part t) ;;
       log MsgSelectedPartitions ;;
       for_each (match n_part with Some l => l | None => [] end)
                (fun n => log (MsgSelected n)) ;;
       add_custom rest n_part) (with_confirm rest w)
  | _ :: rest => (Ok n_part, with_confirm rest w)
  end.

(** Lines 212-226 of [main]: the value of [n_part] when line 227 is
    reached. *)
Definition main_select (n_part : list string) (interactive : bool)
  : M (option (list item)) :=
  match n_part, interactive with
  | [], true =>
      log MsgInteractiveMode ;;
      log MsgHighlighted ;;
      sel <- questionary_checkbox ;;
      (fun w => add_custom (confirm_answers w) (option_map (map CInt) sel) w)
  | _, _ => ret (Some (map CStr n_part))
  end.

(** Lines 230-231: [n_part = n_part or [288]] and the conversion. *)
Definition main_counts (n_part : option (list item)) : result (list Z) :=
  match n_part with
  | None | Some [] => int_each [CInt 288]
  | Some l => int_each l
  end.

(** Lines 235-239. *)
Definition main_run (mesh_path : string) (counts : list Z)
  (alpha beta gamma : option value) (use_cavity : bool)
  (fesom_ini namelist : option string) : M unit :=
  partitoner <- MetisPartitioner_init fesom_ini ;;
  let mesh := {| path := mesh_path |} in
  for_each counts (fun n =>
    log (MsgPartitionScheme n) ;;
    partition_mesh partitoner mesh (PyInt n) alpha beta gamma use_cavity
      namelist).

Definition main (mesh_path : string) (n_part : list string)
  (interactive : bool) (rotated : option (value * value * value))
  (use_cavity : bool) (fesom_ini namelist : option string) : M unit :=
  match rotated with
  | Some (a, b, g) => log MsgRotatedDetected ;; log (MsgRotatingBy a b g)
  | None => ret tt
  end ;;
  let '(alpha, beta, gamma) :=
    match rotated with
    | Some (a, b, g) => (Some a, Some b, Some g)
    | None => (None, None, None)
    end in
  (if use_cavity then log MsgCavityEnabled else ret tt) ;;
  n_part <- main_select n_part interactive ;;
  stop <- (if interactive
           then c <- questionary_confirm ;; ret (negb (default false c))
           else ret false) ;;
  if (stop : bool) then log MsgExiting
  else
    counts <- lift (main_counts n_part) ;;
    log MsgBeginning ;;
    log (MsgMeshPath mesh_path) ;;
    log (MsgSchemes (List.length counts)) ;;
    main_run mesh_path counts alpha beta gamma use_cavity fesom_ini namelist.

End Program.

(** ** Vocabulary of the statements *)

(** [apply_all] is a run of assignments, in the order of the source. *)

Definition assignment : Type := string * string * value.

Fixpoint assign_all (ops : list assignment) (nml : Namelist.t)
  : result Namelist.t :=
  match ops with
  | [] => Ok nml
  | (grp, var, v) :: r => bind (Namelist.setitem2 grp var v nml) (assign_all r)
  end.

Definition given (grp var : string) (v : option value) : list assignment :=
  match v with
  | Some a => [(grp, var, a)]
  | None => []
  end.

Definition assignments (mesh : FesomMesh) (n_part : value)
  (alpha beta gamma : option value) (use_cavity : bool) : list assignment :=
  [("paths", "meshpath", PyStr (path mesh));
   ("machine", "n_levels", PyInt 1);
   ("machine", "n_part", n_part)]
  ++ given "geometry" "alphaeuler" alpha
  ++ given "geometry" "betaeuler" beta
  ++ given "geometry" "gammaeuler" gamma
  ++ (if use_cavity
      then [("ale_def", "use_partial_cell", PyBool true);
            ("run_config", "use_cavity", PyBool true);
            ("run_config", "use_cavity_partial_cell", PyBool true)]
      else []).

(** The key an assignment writes, as stored. *)
Definition target (op : assignment) : string * string :=
  let '(grp, var, _) := op in (lower grp, lower var).

(** What loading the template gives: the bundled one, or what
    [f90nml.read] makes of the path. *)
Definition load (bundled : Namelist.t) (namelist_path : option string)
  (w : world) : result Namelist.t :=
  match namelist_path with
  | Some p =>
      match files w !! p with
      | Some n => read_node (reads_back w) p n
      | None => Err (FileNotFoundError p)
      end
  | None => Ok bundled
  end.

(** The template [prepare_namelist] loads, if loading succeeds, the error
    it raises if not, and the event of loading. *)
Definition template (bundled : Namelist.t) (namelist_path : option string)
  (w : world) : option Namelist.t :=
  match load bundled namelist_path w with
  | Ok tmpl => Some tmpl
  | Err _ => None
  end.

Definition load_error (bundled : Namelist.t) (namelist_path : option string)
  (w : world) : exn :=
  match load bundled namelist_path w with
  | Ok _ => FileNotFoundError EmptyString
  | Err e => e
  end.

(** An exception that did not come from the partitioner. *)
Definition before_child (e : exn) : Prop :=
  match e with
  | CalledProcessError _ _ => False
  | _ => True
  end.

Definition load_event (namelist_path : option string) : io_event :=
  match namelist_path with
  | Some p => IoRead p
  | None => IoReadBundled
  end.


(** The groups a call of [prepare_namelist] subscripts. *)
Definition required_groups (alpha beta gamma : option value)
  (use_cavity : bool) : list string :=
  ["paths"; "machine"]
  ++ (match alpha, beta, gamma with
      | None, None, None => []
      | _, _, _ => ["geometry"]
      end)
  ++ (if use_cavity then ["ale_def"; "run_config"] else []).

(** Each group of [gs] is a group of the document, present once. *)
Definition has_groups (nml : Namelist.t) (gs : list string) : bool :=
  forallb (Namelist.is_group nml) gs.

(** The events that change the disk or start a process. *)
Definition is_effect (e : io_event) : bool :=
  match e with
  | IoWrite _ _ | IoSpawn _ _ => true
  | _ => false
  end.

Definition effects (t : list io_event) : list io_event := List.filter is_effect t.

Definition is_spawn (e : io_event) : bool :=
  match e with
  | IoSpawn _ _ => true
  | _ => false
  end.

(** How many times the partitioner was started. *)
Definition spawns (t : list io_event) : nat := List.length (List.filter is_spawn t).

(** A computation that leaves the disk alone and starts nothing. *)
Definition no_effect {A} (m : M A) : Prop :=
  forall w, files (snd (m w)) = files w /\
            effects (trace (snd (m w))) = effects (trace w).

(** The decimal value of a digit character. *)
Definition digit_value (c : ascii) : Z := Z.of_nat (nat_of_ascii c) - 48.

(** The counts for which the loop of [main_run] was entered, in order. *)
Fixpoint attempted (t : list io_event) : list Z :=
  match t with
  | [] => []
  | IoLog (MsgPartitionScheme n) :: r => n :: attempted r
  | _ :: r => attempted r
  end.

(** One turn of the loop of [main_run]. *)
Definition run_one (child : string -> gmap string node -> Z * gmap string node)
  (bundled : Namelist.t) (self : MetisPartitioner) (mesh_path : string)
  (alpha beta gamma : option value) (use_cavity : bool)
  (namelist : option string) (n : Z) : M unit :=
  bindM (log (MsgPartitionScheme n)) (fun _ =>
    partition_mesh child bundled self {| path := mesh_path |} (PyInt n)
      alpha beta gamma use_cavity namelist).

(** The world in which the partitioner is started: the template was loaded,
    [namelist.config] holds the prepared document, and two lines were
    logged. *)
Definition before_spawn (self : MetisPartitioner)
  (namelist_path : option string) (nml : Namelist.t) (w : world) : world :=
  emit (IoLog (MsgPartitioning (bin self)))
    (emit (IoLog (MsgNamelistWritten (bin self)))
       (emit (IoWrite "namelist.config" nml)
          (with_files (<["namelist.config" := Written nml]> (files w))
             (emit (load_event namelist_path) w)))).

(** A small template with the five groups the tool works on, and the
    binary64 numbers 10.0, 20.0 and 30.0. *)
Definition f10 : spec_float := S754_finite false 5629499534213120 (-49).
Definition f20 : spec_float := S754_finite false 5629499534213120 (-48).
Definition f30 : spec_float := S754_finite false 8444249301319680 (-48).

Definition example_template : Namelist.t :=
  [("paths", [("meshpath", PyStr "./mesh/")]);
   ("geometry", [("cartesian", PyBool false);
                 ("alphaeuler", PyFloat f30);
                 ("betaeuler", PyFloat f20);
                 ("gammaeuler", PyFloat f10)]);
   ("machine", [("n_levels", PyInt 2); ("n_part", PyInt 16)]);
   ("ale_def", [("which_ale", PyStr "zstar");
                ("use_partial_cell", PyBool false)]);
   ("run_config", [("use_cavity", PyBool false)])].

(** A partitioner that exits with status 1 when [namelist.config] asks for
    4 partitions and with status 0 otherwise, and leaves the disk alone. *)
Definition example_child (cmd : string) (fs : gmap string node)
  : Z * gmap string node :=
  match fs !! "namelist.config" with
  | Some (Written nml) | Some (Parses nml) =>
      match Namelist.field nml "machine" "n_part" with
      | Some (PyInt 4) => (1, fs)
      | _ => (0, fs)
      end
  | _ => (2, fs)
  end.

(** A search path on which every name is found, and one on which none is. *)
Definition which_all (name : string) : option string :=
  Some ("/usr/bin/" +:+ name).

Definition which_none (name : string) : option string := None.

(** A world with an empty disk, on which what f90nml writes reads back as
    written. *)
Definition empty_world : world := World ∅ [] [] [] [] Some.

(** ** The earlier module [metis_wizard.py]

    Version 0.0.0 of the tool, kept at the top of the repository: the
    template is the [namelist.config] of the working directory, which
    [partition_mesh] reads and then overwrites. *)

Module Legacy.

Definition _NML : string := "namelist.config".

Definition prepare_namelist (nml_path : string) (mesh : FesomMesh)
  (n_part : value) : M Namelist.t :=
  bindM (f90nml_read nml_path) (fun nml =>
  lift (bind (MetisNamelist.set_mesh (path mesh) nml)
             (MetisNamelist.set_partitioning n_part))).

Definition partition_mesh
  (child : string -> gmap string node -> Z * gmap string node)
  (self : MetisPartitioner) (mesh : FesomMesh) (n_part : value) : M unit :=
  bindM (prepare_namelist _NML mesh n_part) (fun nml =>
  bindM (nml_write nml "namelist.config") (fun _ =>
  bindM (log (MsgNamelistWritten (bin self))) (fun _ =>
  bindM (log (MsgPartitioning (bin self))) (fun _ =>
  bindM (subprocess_run child (bin self)) (fun _ =>
  log (MsgPartitioned (bin self) n_part)))))).

End Legacy.

(** ** Vocabulary of the further statements *)


(** The angles [main] passes on, from the [--rotated] option. *)
Definition angles (rotated : option (value * value * value))
  : option value * option value * option value :=
  match rotated with
  | Some (a, b, g) => (Some a, Some b, Some g)
  | None => (None, None, None)
  end.

(** The world after lines 204-211 of [main]: the option logs. *)
Definition after_preamble (rotated : option (value * value * value))
  (use_cavity : bool) (w : world) : world :=
  let w1 :=
    match rotated with
    | Some (a, b, g) =>
        emit (IoLog (MsgRotatingBy a b g)) (emit (IoLog MsgRotatedDetected) w)
    | None => w
    end in
  if use_cavity then emit (IoLog MsgCavityEnabled) w1 else w1.

(** Line 227: whether [main] returns without partitioning. *)
Definition main_confirm (interactive : bool) : M bool :=
  if interactive
  then bindM questionary_confirm (fun c => ret (negb (default false c)))
  else ret false.

(** Lines 230-239, with the angles of the [--rotated] option. *)
Definition main_proceed (which : string -> option string)
  (child : string -> gmap string node -> Z * gmap string node)
  (bundled : Namelist.t) (mesh_path : string)
  (rotated : option (value * value * value)) (use_cavity : bool)
  (fesom_ini namelist : option string) (n_part : option (list item))
  : M unit :=
  bindM (lift (main_counts n_part)) (fun counts =>
  bindM (log MsgBeginning) (fun _ =>
  bindM (log (MsgMeshPath mesh_path)) (fun _ =>
  bindM (log (MsgSchemes (List.length counts))) (fun _ =>
  main_run which child bundled mesh_path counts (angles rotated).1.1
    (angles rotated).1.2 (angles rotated).2 use_cavity fesom_ini namelist)))).

(** The answer the next confirmation prompt will get. *)
Definition next_confirm (w : world) : option bool :=
  match confirm_answers w with
  | [] => None
  | a :: _ => a
  end.

(** The files written, in order, each with the document written. *)
Fixpoint written (t : list io_event) : list (string * Namelist.t) :=
  match t with
  | [] => []
  | IoWrite p d :: r => (p, d) :: written r
  | _ :: r => written r
  end.

(** What every namelist written by a run of [main] satisfies. *)
Definition written_by_main (mesh_path : string)
  (rotated : option (value * value * value)) (counts : list Z)
  (f : string * Namelist.t) : Prop :=
  f.1 = "namelist.config" /\
  Namelist.field f.2 "paths" "meshpath" = Some (PyStr mesh_path) /\
  Namelist.field f.2 "machine" "n_levels" = Some (PyInt 1) /\
  (exists n, In n counts /\
     Namelist.field f.2 "machine" "n_part" = Some (PyInt n)) /\
  match rotated with
  | Some (a, b, g) =>
      Namelist.field f.2 "geometry" "alphaeuler" = Some a /\
      Namelist.field f.2 "geometry" "betaeuler" = Some b /\
      Namelist.field f.2 "geometry" "gammaeuler" = Some g
  | None => True
  end.

(** The commands started, in order. *)
Fixpoint spawned (t : list io_event) : list string :=
  match t with
  | [] => []
  | IoSpawn cmd _ :: r => cmd :: spawned r
  | _ :: r => spawned r
  end.

(** * Properties *)

(** ** Dictionaries *)

Section OrderedDictFacts.
Context {V : Type}.
Implicit Types (d : list (string * V)) (k : string) (v : V).

Lemma od_get_set_eq k v d :
  OrderedDict.get k (OrderedDict.set k v d) = Some v.
Proof.
  induction d as [|[k' v'] r IH]; simpl.
  - now rewrite String.eqb_refl.
  - destruct (String.eqb k k') eqn:E; simpl.
    + now rewrite String.eqb_refl.
    + now rewrite E.
Qed.

Lemma od_get_set_ne k k' v d :
  k <> k' -> OrderedDict.get k' (OrderedDict.set k v d) = OrderedDict.get k' d.
Proof.
  intros Hne. induction d as [|[k0 v0] r IH]; simpl.
  - destruct (String.eqb_spec k' k); congruence.
  - destruct (String.eqb_spec k k0) as [->|Hk]; simpl.
    + destruct (String.eqb_spec k' k0); congruence.
    + now rewrite IH.
Qed.

Lemma od_set_set k v1 v2 d :
  OrderedDict.set k v2 (OrderedDict.set k v1 d) = OrderedDict.set k v2 d.
Proof.
  induction d as [|[k' v'] r IH]; simpl.
  - now rewrite String.eqb_refl.
  - destruct (String.eqb k k') eqn:E; simpl.
    + now rewrite String.eqb_refl.
    + now rewrite E, IH.
Qed.

End OrderedDictFacts.

(** ** Assignments to a namelist *)

Section NamelistFacts.
Implicit Types (nml : Namelist.t) (grp var g f : string) (v : value).

Lemma get_groups_named nml g :
  OrderedDict.get g nml = head (Namelist.groups_named nml g).
Proof.
  induction nml as [|[k x] r IH]; simpl; [reflexivity|].
  now destruct (String.eqb g k).
Qed.

Lemma groups_named_set_eq nml g (x : Namelist.group) :
  Namelist.groups_named (OrderedDict.set g x nml) g =
  x :: tail (Namelist.groups_named nml g).
Proof.
  induction nml as [|[k y] r IH]; simpl.
  - now rewrite String.eqb_refl.
  - destruct (String.eqb g k) eqn:E; simpl.
    + now rewrite String.eqb_refl.
    + now rewrite E.
Qed.

Lemma groups_named_set_ne nml g g' (x : Namelist.group) :
  g <> g' ->
  Namelist.groups_named (OrderedDict.set g x nml) g' =
  Namelist.groups_named nml g'.
Proof.
  intros Hne. induction nml as [|[k y] r IH]; simpl.
  - destruct (String.eqb_spec g' g); congruence.
  - destruct (String.eqb_spec g k) as [->|Hk]; simpl.
    + destruct (String.eqb_spec g' k); congruence.
    + now rewrite IH.
Qed.

Lemma setitem2_unfold grp var v nml :
  Namelist.setitem2 grp var v nml =
  match Namelist.groups_named nml (lower grp) with
  | [] => Err (KeyError (lower grp))
  | [x] =>
      Ok (OrderedDict.set (lower grp) (OrderedDict.set (lower var) v x) nml)
  | _ => Err TypeError
  end.
Proof.
  unfold Namelist.setitem2, Namelist.getitem.
  now destruct (Namelist.groups_named nml (lower grp)) as [|x [|y r]].
Qed.

(** A successful assignment found the group, once, and replaced it. *)
Lemma setitem2_inv grp var v nml nml' :
  Namelist.setitem2 grp var v nml = Ok nml' ->
  exists x,
    Namelist.groups_named nml (lower grp) = [x] /\
    OrderedDict.get (lower grp) nml = Some x /\
    nml' = OrderedDict.set (lower grp) (OrderedDict.set (lower var) v x) nml.
Proof.
  rewrite setitem2_unfold, get_groups_named.
  destruct (Namelist.groups_named nml (lower grp)) as [|x [|y r]];
    try discriminate.
  intros [= <-]. now exists x.
Qed.

(** A failed assignment found no group, or more than one. *)
Lemma setitem2_raises grp var v nml e :
  Namelist.setitem2 grp var v nml = Err e ->
  (Namelist.has_group nml (lower grp) = false /\ e = KeyError (lower grp)) \/
  (Namelist.has_group nml (lower grp) = true /\ e = TypeError).
Proof.
  rewrite setitem2_unfold. unfold Namelist.has_group.
  rewrite get_groups_named.
  destruct (Namelist.groups_named nml (lower grp)) as [|x [|y r]];
    try discriminate; intros [= <-]; [left|right]; now split.
Qed.

Lemma setitem2_is_ok grp var v nml :
  is_ok (Namelist.setitem2 grp var v nml) = Namelist.is_group nml (lower grp).
Proof.
  rewrite setitem2_unfold. unfold Namelist.is_group.
  now destruct (Namelist.groups_named nml (lower grp)) as [|x [|y r]].
Qed.

Lemma setitem2_is_group grp var v nml nml' g :
  Namelist.setitem2 grp var v nml = Ok nml' ->
  Namelist.is_group nml' g = Namelist.is_group nml g.
Proof.
  intros (x & Hx & _ & ->)%setitem2_inv. unfold Namelist.is_group.
  destruct (String.eqb_spec (lower grp) g) as [<-|Hne].
  - now rewrite groups_named_set_eq, Hx.
  - now rewrite groups_named_set_ne.
Qed.



Lemma setitem2_field_same grp var v nml nml' :
  Namelist.setitem2 grp var v nml = Ok nml' ->
  Namelist.field nml' (lower grp) (lower var) = Some v.
Proof.
  intros (x & _ & E & ->)%setitem2_inv. unfold Namelist.field.
  now rewrite !od_get_set_eq.
Qed.


Lemma setitem2_field_other grp var v nml nml' g f :
  Namelist.setitem2 grp var v nml = Ok nml' ->
  (lower grp, lower var) <> (g, f) ->
  Namelist.field nml' g f = Namelist.field nml g f.
Proof.
  intros (x & _ & E & ->)%setitem2_inv Hne. unfold Namelist.field.
  destruct (String.eqb_spec (lower grp) g) as [<-|Hg].
  - rewrite od_get_set_eq, E.
    apply od_get_set_ne. congruence.
  - now rewrite od_get_set_ne.
Qed.
End NamelistFacts.

Lemma apply_all_assign mesh n_part alpha beta gamma use_cavity nml :
  apply_all mesh n_part alpha beta gamma use_cavity nml =
  assign_all (assignments mesh n_part alpha beta gamma use_cavity) nml.
Proof.
  unfold apply_all, apply_options, MetisNamelist.set_mesh,
    MetisNamelist.set_partitioning, assignments.
  destruct alpha, beta, gamma, use_cavity;
    cbn [bind assign_all app given set_if_given];
    repeat match goal with
      | |- bind (bind ?r _) _ = _ =>
          destruct r; cbn [bind]; [|reflexivity]
      | |- bind ?r _ = bind ?r _ =>
          destruct r; cbn [bind]; [|reflexivity]
      | |- ?r = bind ?r _ => now destruct r
      end;
    reflexivity.
Qed.

Section AssignFacts.
Implicit Types (ops : list assignment) (nml : Namelist.t).

Lemma assign_all_is_group ops : forall nml nml' g,
  assign_all ops nml = Ok nml' ->
  Namelist.is_group nml' g = Namelist.is_group nml g.
Proof.
  induction ops as [|[[grp var] v] r IH]; intros nml nml' g; simpl.
  - now intros [= <-].
  - destruct (Namelist.setitem2 grp var v nml) as [n1|] eqn:E; simpl;
      [|discriminate].
    intros H. rewrite (IH _ _ _ H). eapply setitem2_is_group, E.
Qed.

Lemma assign_all_is_ok ops : forall nml,
  is_ok (assign_all ops nml) =
  forallb (fun op => Namelist.is_group nml (fst (target op))) ops.
Proof.
  induction ops as [|[[grp var] v] r IH]; intros nml; simpl; [reflexivity|].
  rewrite <- setitem2_is_ok with (var := var) (v := v).
  destruct (Namelist.setitem2 grp var v nml) as [n1|] eqn:E; simpl;
    [|reflexivity].
  rewrite IH. clear IH. induction r as [|op r IHr]; simpl; [reflexivity|].
  now rewrite IHr, (setitem2_is_group _ _ _ _ _ _ E).
Qed.


Lemma assign_all_frame_field ops : forall nml nml' g f,
  assign_all ops nml = Ok nml' ->
  Forall (fun op => target op <> (g, f)) ops ->
  Namelist.field nml' g f = Namelist.field nml g f.
Proof.
  induction ops as [|[[grp var] v] r IH]; intros nml nml' g f; simpl.
  - now intros [= <-].
  - destruct (Namelist.setitem2 grp var v nml) as [n1|] eqn:E; simpl;
      [|discriminate].
    intros H Hall. inversion Hall as [|? ? Hop Hr]; subst.
    rewrite (IH _ _ _ _ H Hr). eapply setitem2_field_other; eauto.
Qed.


(** The last assignment to a key decides the value under it. *)
Lemma assign_all_last ops grp var v ops' : forall nml nml',
  assign_all (ops ++ (grp, var, v) :: ops') nml = Ok nml' ->
  Forall (fun op => target op <> (lower grp, lower var)) ops' ->
  Namelist.field nml' (lower grp) (lower var) = Some v.
Proof.
  induction ops as [|[[g0 f0] v0] r IH]; intros nml nml'; simpl.
  - destruct (Namelist.setitem2 grp var v nml) as [n1|] eqn:E; simpl;
      [|discriminate].
    intros H Hall. rewrite (assign_all_frame_field _ _ _ _ _ H Hall).
    eapply setitem2_field_same, E.
  - destruct (Namelist.setitem2 g0 f0 v0 nml) as [n1|] eqn:E; simpl;
      [|discriminate].
    apply IH.
Qed.
End AssignFacts.

(** What [prepare_namelist] computes, and all it does to the world. *)
Lemma prepare_namelist_unfold bundled mesh n_part alpha beta gamma use_cavity
  namelist_path w :
  prepare_namelist bundled mesh n_part alpha beta gamma use_cavity
    namelist_path w =
  (match template bundled namelist_path w with
   | Some tmpl =>
       assign_all (assignments mesh n_part alpha beta gamma use_cavity) tmpl
   | None => Err (load_error bundled namelist_path w)
   end,
   emit (load_event namelist_path) w).
Proof.
  unfold prepare_namelist, bindM, template, load_error, load, load_event,
    lift.
  destruct namelist_path as [p|]; simpl.
  - unfold f90nml_read.
    destruct (match files w !! p with
              | Some n => read_node (reads_back w) p n
              | None => Err (FileNotFoundError p)
              end); [|reflexivity].
    now rewrite apply_all_assign.
  - unfold read_bundled. now rewrite apply_all_assign.
Qed.

(** Loading raises [FileNotFoundError], [IsADirectoryError] or the error of
    the parser, and nothing else. *)
Lemma load_error_kind bundled namelist_path w e :
  load bundled namelist_path w = Err e ->
  exists p, namelist_path = Some p /\
    (e = FileNotFoundError p \/ e = IsADirectoryError p \/ e = ParserError p).
Proof.
  unfold load. destruct namelist_path as [p|]; [|discriminate].
  intros H. exists p. split; [reflexivity|].
  destruct (files w !! p) as [[| |d|d]|]; cbn in H.
  - injection H as <-. auto.
  - injection H as <-. auto.
  - discriminate.
  - destruct (reads_back w d); [discriminate|]. injection H as <-. auto.
  - injection H as <-. auto.
Qed.

Lemma required_groups_spec nml mesh n_part alpha beta gamma use_cavity :
  forallb (fun op => Namelist.is_group nml (fst (target op)))
    (assignments mesh n_part alpha beta gamma use_cavity) =
  has_groups nml (required_groups alpha beta gamma use_cavity).
Proof.
  unfold has_groups, required_groups, assignments.
  generalize (Namelist.is_group nml). intros h.
  destruct alpha, beta, gamma, use_cavity; vm_compute;
    repeat match goal with
      | |- context [h ?g] => destruct (h g)
      end; reflexivity.
Qed.

(** [prepare_namelist] returns a document exactly when the template can be
    read and holds every group the call subscripts; otherwise it raises. *)
Lemma prepare_namelist_is_ok bundled mesh n_part alpha beta gamma use_cavity
  namelist_path w :
  is_ok (fst (prepare_namelist bundled mesh n_part alpha beta gamma use_cavity
                namelist_path w)) =
  match template bundled namelist_path w with
  | Some tmpl => has_groups tmpl (required_groups alpha beta gamma use_cavity)
  | None => false
  end.
Proof.
  rewrite prepare_namelist_unfold. cbn [fst].
  destruct (template bundled namelist_path w); [|reflexivity].
  now rewrite assign_all_is_ok, required_groups_spec.
Qed.

Lemma is_ok_Ok {A} (r : result A) : is_ok r = true -> exists a, r = Ok a.
Proof. destruct r; [eauto|discriminate]. Qed.

(** ** The setters of [MetisNamelist] *)

Ltac solve_frame :=
  repeat constructor;
  let H := fresh in intros H; vm_compute in H; discriminate H.

(** Finds the last assignment to the key of the goal in a run [H], and
    checks that no later one overwrites it. *)
Ltac last_write H :=
  match type of H with
  | assign_all ?L _ = Ok _ =>
      let rec go pre post :=
        match post with
        | ?x :: ?r =>
            first [ apply (assign_all_last pre _ _ _ r _ _ H); solve_frame
                  | go (pre ++ [x]) r ]
        end in
      go (@nil assignment) L
  end.


Lemma set_partitioning_assign n doc :
  MetisNamelist.set_partitioning n doc =
  assign_all [("machine", "n_levels", PyInt 1); ("machine", "n_part", n)] doc.
Proof.
  unfold MetisNamelist.set_partitioning. cbn [assign_all].
  destruct (Namelist.setitem2 "machine" "n_levels" (PyInt 1) doc) as [d|];
    cbn [bind]; [|reflexivity].
  now destruct (Namelist.setitem2 "machine" "n_part" n d).
Qed.

(** Whatever [n] is, [set_partitioning] stores it, next to a level count
    of 1, as soon as [machine] is a group of the document. *)
Lemma set_partitioning_stores n doc :
  Namelist.is_group doc "machine" = true ->
  exists doc',
    MetisNamelist.set_partitioning n doc = Ok doc' /\
    Namelist.field doc' "machine" "n_part" = Some n /\
    Namelist.field doc' "machine" "n_levels" = Some (PyInt 1).
Proof.
  intros Hg. rewrite set_partitioning_assign.
  destruct (is_ok_Ok (assign_all
    [("machine", "n_levels", PyInt 1); ("machine", "n_part", n)] doc))
    as [doc' H].
  { rewrite assign_all_is_ok. cbn [forallb].
    change (fst (target ("machine", "n_levels", PyInt 1))) with "machine".
    change (fst (target ("machine", "n_part", n))) with "machine".
    now rewrite Hg. }
  exists doc'. split; [exact H|]. split; last_write H.
Qed.

(** On a document that repeats the [machine] group, the subscript gives a
    [Cogroup] and the assignment raises [TypeError]. *)
Lemma set_partitioning_on_cogroup n g1 g2 :
  MetisNamelist.set_partitioning n [("machine", g1); ("machine", g2)] =
  Err TypeError.
Proof. reflexivity. Qed.

(** C8. Idempotence of [set_mesh]: setting the mesh path [p] and then
    setting it again gives exactly what setting it once gives, the same
    document when the first call succeeds and the same error when it does
    not (the document has no [paths] group, or repeats it). *)
Theorem set_mesh_idempotent (p : string) (doc : Namelist.t) :
  bind (MetisNamelist.set_mesh p doc) (MetisNamelist.set_mesh p) =
  MetisNamelist.set_mesh p doc.
Proof.
  unfold MetisNamelist.set_mesh.
  rewrite (setitem2_unfold "paths" "meshpath" (PyStr p) doc).
  destruct (Namelist.groups_named doc (lower "paths")) as [|g [|g' r]] eqn:E;
    cbn [bind]; try reflexivity.
  rewrite setitem2_unfold, groups_named_set_eq, E. cbn [tail].
  now rewrite !od_set_set.
Qed.

(** C4. For every positive integer [n] and every document in which
    [machine] is a group (the section is there, once), [set_partitioning]
    returns a document whose [machine.n_part] is [n] and whose
    [machine.n_levels] is 1, whatever they were before. *)
Theorem set_partitioning_positive (n : Z) (doc : Namelist.t) :
  0 < n ->
  Namelist.is_group doc "machine" = true ->
  exists doc',
    MetisNamelist.set_partitioning (PyInt n) doc = Ok doc' /\
    Namelist.field doc' "machine" "n_part" = Some (PyInt n) /\
    Namelist.field doc' "machine" "n_levels" = Some (PyInt 1).
Proof. intros _. apply set_partitioning_stores. Qed.

Lemma set_partitioning_positive_witness :
  exists doc',
    MetisNamelist.set_partitioning (PyInt 288) example_template = Ok doc' /\
    Namelist.field doc' "machine" "n_part" = Some (PyInt 288) /\
    Namelist.field doc' "machine" "n_levels" = Some (PyInt 1).
Proof.
  apply (set_partitioning_positive 288 example_template); [lia | reflexivity].
Defined.

(** C2, refuted as stated. The count 0 is not a positive integer, and
    [set_partitioning] stores it without raising. *)
Lemma set_partitioning_accepts_zero :
  is_positive_int (PyInt 0) = false /\
  exists doc',
    MetisNamelist.set_partitioning (PyInt 0) example_template = Ok doc' /\
    Namelist.field doc' "machine" "n_part" = Some (PyInt 0).
Proof.
  split; [reflexivity|]. eexists. split; reflexivity.
Qed.

(** C2, amended. [set_partitioning] never looks at [n]: for every value [n],
    positive integer or not, it succeeds exactly when [machine] is a group
    of the document (present, and not repeated), and then stores [n] as
    given next to a level count of 1. The exceptions it raises come from
    the subscript alone: [KeyError] when the document has no [machine]
    group, [TypeError] when it repeats it. *)
Theorem set_partitioning_unvalidated (n : value) (doc : Namelist.t) :
  is_ok (MetisNamelist.set_partitioning n doc) =
    Namelist.is_group doc "machine" /\
  match MetisNamelist.set_partitioning n doc with
  | Ok doc' =>
      Namelist.field doc' "machine" "n_part" = Some n /\
      Namelist.field doc' "machine" "n_levels" = Some (PyInt 1)
  | Err e =>
      (Namelist.has_group doc "machine" = false /\ e = KeyError "machine") \/
      (Namelist.has_group doc "machine" = true /\ e = TypeError)
  end.
Proof.
  destruct (Namelist.is_group doc "machine") eqn:Hg.
  - destruct (set_partitioning_stores n doc Hg) as (doc' & -> & H1 & H2).
    now repeat split.
  - unfold MetisNamelist.set_partitioning.
    pose proof (setitem2_is_ok "machine" "n_levels" (PyInt 1) doc) as Hok.
    change (lower "machine") with "machine" in Hok. rewrite Hg in Hok.
    destruct (Namelist.setitem2 "machine" "n_levels" (PyInt 1) doc)
      as [d|e] eqn:E; [discriminate Hok|].
    cbn [bind is_ok]. split; [reflexivity|].
    exact (setitem2_raises _ _ _ _ _ E).
Qed.

(** ** [prepare_namelist] *)

Lemma prepare_namelist_returns bundled mesh n_part alpha beta gamma use_cavity
  namelist_path w tmpl :
  template bundled namelist_path w = Some tmpl ->
  has_groups tmpl (required_groups alpha beta gamma use_cavity) = true ->
  exists doc',
    fst (prepare_namelist bundled mesh n_part alpha beta gamma use_cavity
           namelist_path w) = Ok doc' /\
    assign_all (assignments mesh n_part alpha beta gamma use_cavity) tmpl =
      Ok doc'.
Proof.
  intros Ht Hg. rewrite prepare_namelist_unfold, Ht. cbn [fst].
  destruct (is_ok_Ok (assign_all
    (assignments mesh n_part alpha beta gamma use_cavity) tmpl)) as [doc' H].
  { now rewrite assign_all_is_ok, required_groups_spec. }
  eauto.
Qed.

(** C5. With the cavity flag on, [prepare_namelist] returns a document in
    which [ale_def.use_partial_cell], [run_config.use_cavity] and
    [run_config.use_cavity_partial_cell] are all [True]; with the flag off,
    the three fields are what they were in the template (absent ones stay
    absent). In both cases the template is one that can be read and in
    which every group the call subscripts is a group, present once. *)
Theorem prepare_namelist_cavity (bundled : Namelist.t) (mesh : FesomMesh)
  (n_part : value) (alpha beta gamma : option value)
  (namelist_path : option string) (w : world) (tmpl : Namelist.t) :
  template bundled namelist_path w = Some tmpl ->
  (has_groups tmpl (required_groups alpha beta gamma true) = true ->
   exists doc',
     fst (prepare_namelist bundled mesh n_part alpha beta gamma true
            namelist_path w) = Ok doc' /\
     Namelist.field doc' "ale_def" "use_partial_cell" = Some (PyBool true) /\
     Namelist.field doc' "run_config" "use_cavity" = Some (PyBool true) /\
     Namelist.field doc' "run_config" "use_cavity_partial_cell" =
       Some (PyBool true)) /\
  (has_groups tmpl (required_groups alpha beta gamma false) = true ->
   exists doc',
     fst (prepare_namelist bundled mesh n_part alpha beta gamma false
            namelist_path w) = Ok doc' /\
     Namelist.field doc' "ale_def" "use_partial_cell" =
       Namelist.field tmpl "ale_def" "use_partial_cell" /\
     Namelist.field doc' "run_config" "use_cavity" =
       Namelist.field tmpl "run_config" "use_cavity" /\
     Namelist.field doc' "run_config" "use_cavity_partial_cell" =
       Namelist.field tmpl "run_config" "use_cavity_partial_cell").
Proof.
  intros Ht. split; intros Hg;
    destruct (prepare_namelist_returns bundled mesh n_part alpha beta gamma _
                namelist_path w tmpl Ht Hg) as (doc' & Hp & H);
    exists doc'; (split; [exact Hp|]);
    destruct alpha, beta, gamma; cbv [assignments given app] in H.
  all: try (repeat split; last_write H).
  all: repeat split; apply (assign_all_frame_field _ _ _ _ _ H); solve_frame.
Qed.

Lemma prepare_namelist_cavity_witness :
  let w := World ∅ [] [] [] [] Some in
  (exists doc',
     fst (prepare_namelist example_template {| path := "/data/mesh1" |}
            (PyInt 288) None None None true None w) = Ok doc' /\
     Namelist.field doc' "ale_def" "use_partial_cell" = Some (PyBool true) /\
     Namelist.field doc' "run_config" "use_cavity" = Some (PyBool true) /\
     Namelist.field doc' "run_config" "use_cavity_partial_cell" =
       Some (PyBool true)) /\
  (exists doc',
     fst (prepare_namelist example_template {| path := "/data/mesh1" |}
            (PyInt 288) None None None false None w) = Ok doc' /\
     Namelist.field doc' "ale_def" "use_partial_cell" = Some (PyBool false) /\
     Namelist.field doc' "run_config" "use_cavity" = Some (PyBool false) /\
     Namelist.field doc' "run_config" "use_cavity_partial_cell" = None).
Proof.
  intros w.
  destruct (prepare_namelist_cavity example_template {| path := "/data/mesh1" |}
              (PyInt 288) None None None None w example_template eq_refl)
    as [Hon Hoff].
  split; [apply Hon; reflexivity | apply Hoff; reflexivity].
Defined.

(** C3, refuted as stated. With only [alpha] supplied, [prepare_namelist]
    does not fail: it returns a document with the new [alphaeuler] and the
    template's [betaeuler] and [gammaeuler]. *)
Lemma prepare_namelist_partial_rotation :
  exists doc',
    fst (prepare_namelist example_template {| path := "/data/mesh1" |}
           (PyInt 288) (Some (PyFloat f10)) None None false None
           (World ∅ [] [] [] [] Some)) = Ok doc' /\
    Namelist.field doc' "geometry" "alphaeuler" = Some (PyFloat f10) /\
    Namelist.field doc' "geometry" "betaeuler" = Some (PyFloat f20) /\
    Namelist.field doc' "geometry" "gammaeuler" = Some (PyFloat f10).
Proof. eexists. repeat split; reflexivity. Qed.

(** C3, amended. Each angle is applied on its own: on a template that can
    be read and in which every group the call subscripts is a group,
    present once, [prepare_namelist]
    returns a document in which every supplied angle is stored in its
    [geometry] field exactly as given, and every absent one leaves its field
    as in the template. In particular all three supplied values are stored
    when all three are given, and one or two supplied angles are applied
    without an error. *)
Theorem prepare_namelist_rotation (bundled : Namelist.t) (mesh : FesomMesh)
  (n_part : value) (alpha beta gamma : option value) (use_cavity : bool)
  (namelist_path : option string) (w : world) (tmpl : Namelist.t) :
  template bundled namelist_path w = Some tmpl ->
  has_groups tmpl (required_groups alpha beta gamma use_cavity) = true ->
  exists doc',
    fst (prepare_namelist bundled mesh n_part alpha beta gamma use_cavity
           namelist_path w) = Ok doc' /\
    Namelist.field doc' "geometry" "alphaeuler" =
      match alpha with
      | Some a => Some a
      | None => Namelist.field tmpl "geometry" "alphaeuler"
      end /\
    Namelist.field doc' "geometry" "betaeuler" =
      match beta with
      | Some b => Some b
      | None => Namelist.field tmpl "geometry" "betaeuler"
      end /\
    Namelist.field doc' "geometry" "gammaeuler" =
      match gamma with
      | Some g => Some g
      | None => Namelist.field tmpl "geometry" "gammaeuler"
      end.
Proof.
  intros Ht Hg.
  destruct (prepare_namelist_returns bundled mesh n_part alpha beta gamma _
              namelist_path w tmpl Ht Hg) as (doc' & Hp & H).
  exists doc'. split; [exact Hp|].
  destruct alpha, beta, gamma, use_cavity; cbv [assignments given app] in H;
    repeat split;
    first [ last_write H
          | apply (assign_all_frame_field _ _ _ _ _ H); solve_frame ].
Qed.

Lemma prepare_namelist_rotation_witness :
  exists doc',
    fst (prepare_namelist example_template {| path := "/data/mesh1" |}
           (PyInt 288) (Some (PyFloat f10)) (Some (PyFloat f20))
           (Some (PyFloat f30)) false None empty_world) = Ok doc' /\
    Namelist.field doc' "geometry" "alphaeuler" = Some (PyFloat f10) /\
    Namelist.field doc' "geometry" "betaeuler" = Some (PyFloat f20) /\
    Namelist.field doc' "geometry" "gammaeuler" = Some (PyFloat f30).
Proof.
  apply (prepare_namelist_rotation example_template {| path := "/data/mesh1" |}
           (PyInt 288) (Some (PyFloat f10)) (Some (PyFloat f20))
           (Some (PyFloat f30)) false None empty_world
           example_template); reflexivity.
Defined.




(** ** [partition_mesh] *)

Lemma partition_mesh_unfold child bundled self mesh n_part alpha beta gamma
  use_cavity namelist_path w :
  partition_mesh child bundled self mesh n_part alpha beta gamma use_cavity
    namelist_path w =
  match fst (prepare_namelist bundled mesh n_part alpha beta gamma use_cavity
               namelist_path w) with
  | Err e => (Err e, emit (load_event namelist_path) w)
  | Ok nml =>
      let w1 := before_spawn self namelist_path nml w in
      let w2 := emit (IoSpawn (bin self) (fst (child (bin self) (files w1))))
                  (with_files (snd (child (bin self) (files w1))) w1) in
      if fst (child (bin self) (files w1)) =? 0
      then (Ok tt, emit (IoLog (MsgPartitioned (bin self) n_part)) w2)
      else (Err (CalledProcessError (fst (child (bin self) (files w1)))
                   (bin self)), w2)
  end.
Proof.
  unfold partition_mesh, bindM.
  pose proof (prepare_namelist_unfold bundled mesh n_part alpha beta gamma
                use_cavity namelist_path w) as Hp.
  destruct (prepare_namelist bundled mesh n_part alpha beta gamma use_cavity
              namelist_path w) as [r w0].
  injection Hp as Hr ->. cbn [fst].
  destruct r as [nml|e]; [|reflexivity].
  unfold nml_write, log, subprocess_run, before_spawn.
  cbn [fst snd files emit with_files].
  destruct (child (bin self) _) as [rc fs].
  cbn [fst snd]. now destruct (rc =? 0).
Qed.

(** C6. When [prepare_namelist] returns [nml] and the partitioner, started
    on the disk that holds [nml] as [namelist.config], exits with a non-zero
    status [rc], [partition_mesh] raises [CalledProcessError] (the error the
    spec names PartitionExecutionError). The namelist was written before the
    process was started, and the spawn is the last thing [partition_mesh]
    does: the disk is left as the partitioner left it, so a partitioner that
    keeps [namelist.config] leaves the file written from [nml] there. *)
Theorem partition_mesh_failure
  (child : string -> gmap string node -> Z * gmap string node)
  (bundled : Namelist.t) (self : MetisPartitioner) (mesh : FesomMesh)
  (n_part : value) (alpha beta gamma : option value) (use_cavity : bool)
  (namelist_path : option string) (w : world) (nml : Namelist.t) (rc : Z)
  (fs : gmap string node) :
  fst (prepare_namelist bundled mesh n_part alpha beta gamma use_cavity
         namelist_path w) = Ok nml ->
  child (bin self) (<["namelist.config" := Written nml]> (files w)) =
    (rc, fs) ->
  rc <> 0 ->
  let r := partition_mesh child bundled self mesh n_part alpha beta gamma
             use_cavity namelist_path w in
  fst r = Err (CalledProcessError rc (bin self)) /\
  trace (snd r) =
    trace w ++ [load_event namelist_path;
                IoWrite "namelist.config" nml;
                IoLog (MsgNamelistWritten (bin self));
                IoLog (MsgPartitioning (bin self));
                IoSpawn (bin self) rc] /\
  files (snd r) = fs /\
  (fs !! "namelist.config" = Some (Written nml) ->
   files (snd r) !! "namelist.config" = Some (Written nml)).
Proof.
  intros Hp Hc Hrc r. subst r. rewrite partition_mesh_unfold, Hp.
  cbv zeta. unfold before_spawn. cbn [files emit with_files]. rewrite Hc.
  cbn [fst snd]. destruct (Z.eqb_spec rc 0) as [|_]; [contradiction|].
  cbn [fst snd files trace emit with_files].
  repeat split; [now rewrite <- !app_assoc | auto].
Qed.

Lemma partition_mesh_failure_witness :
  let child := fun (_ : string) (fs : gmap string node) => (1, fs) in
  let w := World ∅ [] [] [] [] Some in
  exists nml,
    let r := partition_mesh child example_template {| bin := "fesom_ini" |}
               {| path := "/data/mesh1" |} (PyInt 288) None None None false
               None w in
    fst r = Err (CalledProcessError 1 "fesom_ini") /\
    trace (snd r) =
      [IoReadBundled; IoWrite "namelist.config" nml;
       IoLog (MsgNamelistWritten "fesom_ini");
       IoLog (MsgPartitioning "fesom_ini");
       IoSpawn "fesom_ini" 1] /\
    files (snd r) !! "namelist.config" = Some (Written nml).
Proof.
  intros child w.
  destruct (is_ok_Ok (fst (prepare_namelist example_template
              {| path := "/data/mesh1" |} (PyInt 288) None None None false
              None w)) eq_refl) as [nml Hp].
  exists nml.
  destruct (partition_mesh_failure child example_template
              {| bin := "fesom_ini" |} {| path := "/data/mesh1" |} (PyInt 288)
              None None None false None w nml 1
              (<["namelist.config" := Written nml]> ∅) Hp eq_refl)
    as (Hr & Ht & _ & Hf); [lia|].
  split; [exact Hr|]. split; [exact Ht|].
  apply Hf. apply lookup_insert_eq.
Defined.

(** ** The loop of [main_run] *)

Lemma attempted_app t l : attempted (t ++ l) = attempted t ++ attempted l.
Proof.
  induction t as [|e t IH]; [reflexivity|].
  destruct e as [m| | | |]; simpl; try exact IH.
  destruct m; simpl; try exact IH. now rewrite IH.
Qed.

Lemma spawns_app t l : spawns (t ++ l) = (spawns t + spawns l)%nat.
Proof.
  unfold spawns. now rewrite List.filter_app, length_app.
Qed.

Lemma assign_all_raises ops : forall nml e,
  assign_all ops nml = Err e -> before_child e.
Proof.
  induction ops as [|[[grp var] v] r IH]; intros nml e; simpl; [discriminate|].
  destruct (Namelist.setitem2 grp var v nml) as [n1|e1] eqn:E; simpl.
  - apply IH.
  - intros [= <-].
    now destruct (setitem2_raises _ _ _ _ _ E) as [[_ ->]|[_ ->]].
Qed.

Lemma prepare_namelist_raises bundled mesh n_part alpha beta gamma use_cavity
  namelist_path w e :
  fst (prepare_namelist bundled mesh n_part alpha beta gamma use_cavity
         namelist_path w) = Err e ->
  before_child e.
Proof.
  rewrite prepare_namelist_unfold. cbn [fst].
  unfold template, load_error.
  destruct (load bundled namelist_path w) as [tmpl|e'] eqn:El.
  - apply assign_all_raises.
  - intros [= <-].
    now destruct (load_error_kind _ _ _ _ El) as (p & _ & [->|[->| ->]]).
Qed.

(** What a call of [partition_mesh] adds to the record: no turn of the
    loop, and one start of the partitioner unless the namelist could not be
    prepared. *)
Lemma partition_mesh_trace child bundled self mesh n_part alpha beta gamma
  use_cavity namelist_path w :
  let r := partition_mesh child bundled self mesh n_part alpha beta gamma
             use_cavity namelist_path w in
  attempted (trace (snd r)) = attempted (trace w) /\
  spawns (trace (snd r)) =
    (spawns (trace w) +
     match fst r with
     | Ok _ | Err (CalledProcessError _ _) => 1
     | Err _ => 0
     end)%nat.
Proof.
  cbv zeta. rewrite partition_mesh_unfold.
  destruct (fst (prepare_namelist bundled mesh n_part alpha beta gamma
                   use_cavity namelist_path w)) as [nml|e] eqn:Hp.
  - cbv zeta. unfold before_spawn.
    destruct (fst (child _ _) =? 0);
      cbn [fst snd files trace emit with_files];
      rewrite !attempted_app, !spawns_app;
      destruct namelist_path; cbn; rewrite ?app_nil_r; split; lia || reflexivity.
  - cbn [fst snd trace emit]. rewrite attempted_app, spawns_app.
    pose proof (prepare_namelist_raises _ _ _ _ _ _ _ _ _ _ Hp) as He.
    destruct e; try contradiction;
      destruct namelist_path; cbn; rewrite ?app_nil_r; split; lia || reflexivity.
Qed.

Lemma run_one_trace child bundled self mesh_path alpha beta gamma use_cavity
  namelist n w :
  let r := run_one child bundled self mesh_path alpha beta gamma use_cavity
             namelist n w in
  attempted (trace (snd r)) = attempted (trace w) ++ [n] /\
  spawns (trace (snd r)) =
    (spawns (trace w) +
     match fst r with
     | Ok _ | Err (CalledProcessError _ _) => 1
     | Err _ => 0
     end)%nat.
Proof.
  cbv zeta. unfold run_one, bindM, log.
  pose proof (partition_mesh_trace child bundled self {| path := mesh_path |}
                (PyInt n) alpha beta gamma use_cavity namelist
                (emit (IoLog (MsgPartitionScheme n)) w)) as H.
  cbv zeta in H. cbn [trace emit] in H.
  rewrite attempted_app, spawns_app in H. cbn in H.
  now rewrite Nat.add_0_r in H.
Qed.

Lemma for_each_app {A} (xs ys : list A) (body : A -> M unit) w :
  for_each (xs ++ ys) body w =
  match for_each xs body w with
  | (Ok _, w') => for_each ys body w'
  | (Err e, w') => (Err e, w')
  end.
Proof.
  revert w. induction xs as [|x r IH]; intros w; simpl; [reflexivity|].
  unfold bindM. destruct (body x w) as [[[]|e] w']; [apply IH|reflexivity].
Qed.

Lemma for_each_run_one_ok child bundled self mesh_path alpha beta gamma
  use_cavity namelist pre : forall w w1,
  for_each pre (run_one child bundled self mesh_path alpha beta gamma
                  use_cavity namelist) w = (Ok tt, w1) ->
  attempted (trace w1) = attempted (trace w) ++ pre /\
  spawns (trace w1) = (spawns (trace w) + List.length pre)%nat.
Proof.
  induction pre as [|n r IH]; intros w w1; simpl.
  - intros [= <-]. rewrite app_nil_r. split; [reflexivity|lia].
  - unfold bindM.
    pose proof (run_one_trace child bundled self mesh_path alpha beta gamma
                  use_cavity namelist n w) as Hn. cbv zeta in Hn.
    destruct (run_one child bundled self mesh_path alpha beta gamma use_cavity
                namelist n w) as [[[]|e] w'] eqn:E; [|discriminate].
    cbn [fst snd] in Hn. destruct Hn as [Ha Hs].
    intros H. destruct (IH _ _ H) as [Ha' Hs'].
    rewrite Ha', Ha, Hs', Hs, <- app_assoc. split; [reflexivity|lia].
Qed.

Lemma main_run_unfold which child bundled mesh_path counts alpha beta gamma
  use_cavity fesom_ini namelist w :
  main_run which child bundled mesh_path counts alpha beta gamma use_cavity
    fesom_ini namelist w =
  if found (which (bin_or_default fesom_ini))
  then for_each counts
         (run_one child bundled {| bin := bin_or_default fesom_ini |}
            mesh_path alpha beta gamma use_cavity namelist) w
  else (Err (MetisPartitionerError (bin_or_default fesom_ini)), w).
Proof.
  unfold main_run, MetisPartitioner_init, bindM.
  now destruct (found (which (bin_or_default fesom_ini))).
Qed.

(** C1, refuted as stated. Asked for 4 and then 8 partitions with a
    partitioner that fails on 4 only, [main] raises [CalledProcessError]
    after the first count: the loop was entered for 4 alone, and the
    partitioner was started once. The count 8 is never tried. *)
Lemma main_abandons_remaining_counts :
  let r := main which_all example_child example_template "/data/mesh1"
             ["4"; "8"] false None false None None empty_world in
  fst r = Err (CalledProcessError 1 "fesom_ini") /\
  attempted (trace (snd r)) = [4] /\
  spawns (trace (snd r)) = 1%nat.
Proof. vm_compute. repeat split. Qed.

(** C1, amended. A failing partitioner run ends the loop. When the runs for
    the counts [pre] succeed and the run for the next count [n] raises
    [CalledProcessError], [main_run] raises that same error in the world the
    failing run left: the loop was entered for [pre] and [n] and for none of
    the counts [post] that follow, and the partitioner was started once per
    count up to [n]. *)
Theorem main_run_stops_at_failure
  (which : string -> option string)
  (child : string -> gmap string node -> Z * gmap string node)
  (bundled : Namelist.t) (mesh_path : string) (pre : list Z) (n : Z)
  (post : list Z) (alpha beta gamma : option value) (use_cavity : bool)
  (fesom_ini namelist : option string) (w w1 w2 : world) (rc : Z)
  (cmd : string) :
  let turn := run_one child bundled {| bin := bin_or_default fesom_ini |}
                mesh_path alpha beta gamma use_cavity namelist in
  found (which (bin_or_default fesom_ini)) = true ->
  for_each pre turn w = (Ok tt, w1) ->
  turn n w1 = (Err (CalledProcessError rc cmd), w2) ->
  main_run which child bundled mesh_path (pre ++ n :: post) alpha beta gamma
    use_cavity fesom_ini namelist w = (Err (CalledProcessError rc cmd), w2) /\
  attempted (trace w2) = attempted (trace w) ++ pre ++ [n] /\
  spawns (trace w2) = (spawns (trace w) + List.length pre + 1)%nat.
Proof.
  intros turn Hw Hpre Hn.
  rewrite main_run_unfold, Hw. fold turn.
  rewrite for_each_app, Hpre. cbn [for_each]. unfold bindM. rewrite Hn.
  split; [reflexivity|].
  destruct (for_each_run_one_ok _ _ _ _ _ _ _ _ _ _ _ _ Hpre) as [Ha Hs].
  pose proof (run_one_trace child bundled {| bin := bin_or_default fesom_ini |}
                mesh_path alpha beta gamma use_cavity namelist n w1) as Ht.
  cbv zeta in Ht. fold turn in Ht. rewrite Hn in Ht. cbn [fst snd] in Ht.
  destruct Ht as [Ha' Hs']. rewrite Ha', Ha, Hs', Hs, <- app_assoc.
  split; reflexivity.
Qed.

Lemma main_run_stops_at_failure_witness :
  let turn := run_one example_child example_template {| bin := "fesom_ini" |}
                "/data/mesh1" None None None false None in
  let w1 := snd (for_each [2] turn empty_world) in
  let w2 := snd (turn 4 w1) in
  main_run which_all example_child example_template "/data/mesh1"
    ([2] ++ 4 :: [8]) None None None false None None empty_world =
    (Err (CalledProcessError 1 "fesom_ini"), w2) /\
  attempted (trace w2) = [2; 4] /\
  spawns (trace w2) = 2%nat.
Proof.
  intros turn w1 w2.
  apply (main_run_stops_at_failure which_all example_child example_template
           "/data/mesh1" [2] 4 [8] None None None false None None
           empty_world w1 w2 1 "fesom_ini").
  - reflexivity.
  - subst w1 turn. vm_compute. reflexivity.
  - subst w2 w1 turn. vm_compute. reflexivity.
Defined.

(** ** Computations without effect on the disk *)

Lemma effects_emit e w :
  effects (trace (emit e w)) =
  effects (trace w) ++ (if is_effect e then [e] else []).
Proof.
  unfold effects. cbn [trace emit]. rewrite List.filter_app. cbn.
  now destruct (is_effect e).
Qed.

Lemma no_effect_ret {A} (a : A) : no_effect (ret a).
Proof. now intros w. Qed.

Lemma no_effect_raise {A} (e : exn) : no_effect (@raise A e).
Proof. now intros w. Qed.

Lemma no_effect_lift {A} (r : result A) : no_effect (lift r).
Proof. now intros w. Qed.

Lemma no_effect_log m : no_effect (log m).
Proof.
  intros w. unfold log. cbn [snd]. rewrite effects_emit. cbn.
  now rewrite app_nil_r.
Qed.

Lemma no_effect_checkbox : no_effect questionary_checkbox.
Proof. intros w. unfold questionary_checkbox. now destruct (checkbox_answers w). Qed.

Lemma no_effect_confirm : no_effect questionary_confirm.
Proof. intros w. unfold questionary_confirm. now destruct (confirm_answers w). Qed.

Lemma no_effect_text : no_effect questionary_text.
Proof. intros w. unfold questionary_text. now destruct (text_answers w). Qed.

Lemma no_effect_bind {A B} (m : M A) (k : A -> M B) :
  no_effect m -> (forall a, no_effect (k a)) -> no_effect (bindM m k).
Proof.
  intros Hm Hk w. unfold bindM. specialize (Hm w).
  destruct (m w) as [[a|e] w']; cbn [snd] in Hm |- *; [|exact Hm].
  destruct (Hk a w') as [Hf Ht]. destruct Hm as [Hf' Ht'].
  split; congruence.
Qed.

Lemma no_effect_for_each {A} (xs : list A) (body : A -> M unit) :
  (forall x, no_effect (body x)) -> no_effect (for_each xs body).
Proof.
  intros Hb. induction xs as [|x r IH]; simpl.
  - apply no_effect_ret.
  - apply no_effect_bind; auto.
Qed.

Create HintDb noeff.
#[local] Hint Resolve no_effect_ret no_effect_raise no_effect_lift
  no_effect_log no_effect_checkbox no_effect_confirm no_effect_text
  no_effect_for_each : noeff.

Ltac no_eff :=
  repeat first
    [ solve [auto with noeff]
    | apply no_effect_bind; [|intros ?]
    | match goal with
      | |- no_effect (if ?b then _ else _) => destruct b
      | |- no_effect (match ?x with _ => _ end) => destruct x
      end ].

Lemma no_effect_add_custom answers : forall n_part,
  no_effect (add_custom answers n_part).
Proof.
  induction answers as [|a rest IH]; intros n_part w; [now cbn|].
  destruct a as [[|]|]; cbn [add_custom]; try now cbn.
  assert (H : no_effect
    (bindM questionary_text (fun t =>
     bindM (lift (iadd n_part t)) (fun n_part0 =>
     bindM (log MsgSelectedPartitions) (fun _ =>
     bindM (for_each match n_part0 with Some l => l | None => [] end
              (fun n => log (MsgSelected n))) (fun _ =>
     add_custom rest n_part0)))))).
  { no_eff. }
  apply (H (with_confirm rest w)).
Qed.

Lemma no_effect_main_select n_part interactive :
  no_effect (main_select n_part interactive).
Proof.
  unfold main_select. destruct n_part, interactive; no_eff.
  intros w. apply no_effect_add_custom.
Qed.

Lemma no_effect_main_unfound which child bundled mesh_path n_part interactive
  rotated use_cavity fesom_ini namelist :
  found (which (bin_or_default fesom_ini)) = false ->
  no_effect (main which child bundled mesh_path n_part interactive rotated
               use_cavity fesom_ini namelist).
Proof.
  intros Hw.
  assert (Hrun : forall counts alpha beta gamma,
            no_effect (main_run which child bundled mesh_path counts alpha
                         beta gamma use_cavity fesom_ini namelist)).
  { intros counts alpha beta gamma w. now rewrite main_run_unfold, Hw. }
  pose proof no_effect_main_select as Hsel.
  unfold main. destruct rotated as [[[a b] g]|]; no_eff.
Qed.

(** C10. A falsy executable name, [None] or the empty string, is replaced
    by ["fesom_ini"]; a name that is given, and not empty, is kept as it is.
    The name so resolved is the one looked up on the search path and the
    one reported: when it is found the constructor returns the partitioner
    of that name, and when it is not the constructor raises
    [MetisPartitionerError] with that name and changes nothing; [main_run]
    then raises it before the loop, and a whole run of [main] writes no file
    and starts no process. *)
Theorem partitioner_not_found
  (which : string -> option string)
  (child : string -> gmap string node -> Z * gmap string node)
  (bundled : Namelist.t) (fesom_ini : option string) :
  (fesom_ini = None \/ fesom_ini = Some "" ->
   bin_or_default fesom_ini = "fesom_ini" /\
   (found (which "fesom_ini") = false ->
    forall w,
      MetisPartitioner_init which fesom_ini w =
      (Err (MetisPartitionerError "fesom_ini"), w))) /\
  (forall name, fesom_ini = Some name -> name <> "" ->
   bin_or_default fesom_ini = name /\
   (found (which name) = false ->
    forall w,
      MetisPartitioner_init which fesom_ini w =
      (Err (MetisPartitionerError name), w))) /\
  (found (which (bin_or_default fesom_ini)) = true ->
   forall w,
     MetisPartitioner_init which fesom_ini w =
     (Ok {| bin := bin_or_default fesom_ini |}, w)) /\
  (found (which (bin_or_default fesom_ini)) = false ->
   (forall w,
      MetisPartitioner_init which fesom_ini w =
      (Err (MetisPartitionerError (bin_or_default fesom_ini)), w)) /\
   (forall mesh_path counts alpha beta gamma use_cavity namelist w,
      main_run which child bundled mesh_path counts alpha beta gamma
        use_cavity fesom_ini namelist w =
      (Err (MetisPartitionerError (bin_or_default fesom_ini)), w)) /\
   (forall mesh_path n_part interactive rotated use_cavity namelist,
      no_effect (main which child bundled mesh_path n_part interactive
                   rotated use_cavity fesom_ini namelist))).
Proof.
  assert (Hnot : found (which (bin_or_default fesom_ini)) = false ->
            forall w,
              MetisPartitioner_init which fesom_ini w =
              (Err (MetisPartitionerError (bin_or_default fesom_ini)), w)).
  { intros Hw w. unfold MetisPartitioner_init. now rewrite Hw. }
  split; [|split; [|split]].
  - intros Hf.
    assert (Hb : bin_or_default fesom_ini = "fesom_ini")
      by now destruct Hf as [-> | ->].
    split; [exact Hb|]. rewrite <- Hb at 1. intros Hw w.
    rewrite (Hnot Hw w). now rewrite Hb.
  - intros name -> Hname.
    assert (Hb : bin_or_default (Some name) = name)
      by (destruct name; [contradiction|reflexivity]).
    split; [exact Hb|]. intros Hw w.
    rewrite <- Hb in Hw. rewrite (Hnot Hw w). now rewrite Hb.
  - intros Hw w. unfold MetisPartitioner_init. now rewrite Hw.
  - intros Hw. split; [exact (Hnot Hw)|split].
    + intros. now rewrite main_run_unfold, Hw.
    + intros. now apply no_effect_main_unfound.
Qed.

Lemma partitioner_not_found_witness :
  bin_or_default (Some "") = "fesom_ini" /\
  MetisPartitioner_init which_none (Some "") empty_world =
    (Err (MetisPartitionerError "fesom_ini"), empty_world) /\
  MetisPartitioner_init which_none (Some "/opt/fesom/bin/fesom_ini")
    empty_world =
    (Err (MetisPartitionerError "/opt/fesom/bin/fesom_ini"), empty_world) /\
  files (snd (main which_none example_child example_template "/data/mesh1"
                ["288"] false None false (Some "") None empty_world)) = ∅.
Proof.
  destruct (partitioner_not_found which_none example_child example_template
              (Some "")) as (Hb & _ & _ & Hn).
  destruct (Hb (or_intror eq_refl)) as [Hd Hraise].
  split; [exact Hd|]. split; [exact (Hraise eq_refl empty_world)|].
  destruct (partitioner_not_found which_none example_child example_template
              (Some "/opt/fesom/bin/fesom_ini")) as (_ & He & _ & _).
  destruct (He "/opt/fesom/bin/fesom_ini" eq_refl) as [_ Hnamed];
    [discriminate|].
  split; [exact (Hnamed eq_refl empty_world)|].
  destruct (Hn eq_refl) as (_ & _ & Hm).
  apply (Hm "/data/mesh1" ["288"] false None false None empty_world).
Defined.

(** ** The interactive selection *)

Lemma int_digit_char c :
  is_digit c = true ->
  int (CStr (String c EmptyString)) = Ok (digit_value c) /\
  0 <= digit_value c <= 9.
Proof.
  destruct c as [[] [] [] [] [] [] [] []]; intros H;
    try discriminate H; clear H; vm_compute; repeat split; discriminate.
Qed.

Lemma int_each_app xs ys :
  int_each (xs ++ ys) =
  bind (int_each xs) (fun a => bind (int_each ys) (fun b => Ok (a ++ b))).
Proof.
  induction xs as [|x r IH]; simpl.
  - now destruct (int_each ys).
  - destruct (int x); simpl; [|reflexivity].
    rewrite IH. destruct (int_each r); simpl; [|reflexivity].
    now destruct (int_each ys).
Qed.

Lemma int_each_ints sel : int_each (map CInt sel) = Ok sel.
Proof.
  induction sel as [|z r IH]; simpl; [reflexivity|]. now rewrite IH.
Qed.

Lemma int_each_digits cs :
  forallb is_digit cs = true ->
  int_each (map (fun c => CStr (String c EmptyString)) cs) =
    Ok (map digit_value cs) /\
  Forall (fun d => 0 <= d <= 9) (map digit_value cs).
Proof.
  induction cs as [|c r IH]; cbn [forallb map int_each].
  - now split.
  - intros [Hc Hr]%andb_prop. destruct (int_digit_char c Hc) as [-> Hd].
    destruct (IH Hr) as [-> HF]. split; [reflexivity|].
    now constructor.
Qed.

Lemma for_each_log {A} (f : A -> log_msg) (xs : list A) : forall w,
  for_each xs (fun x => log (f x)) w =
  (Ok tt, fold_left (fun w x => emit (IoLog (f x)) w) xs w).
Proof.
  induction xs as [|x r IH]; intros w; [reflexivity|].
  cbn [for_each fold_left]. unfold bindM, log at 1. apply IH.
Qed.

Lemma length_chars_of_string s :
  List.length (list_ascii_of_string s) = String.length s.
Proof. induction s as [|c r IH]; simpl; [reflexivity|now rewrite IH]. Qed.

(** One turn of the loop: the entered text is appended character by
    character, and the selection is logged. *)
Lemma add_custom_turn l s rest tq w :
  text_answers w = Some s :: tq ->
  add_custom (Some true :: rest) (Some l) w =
  add_custom rest (Some (l ++ chars s))
    (fold_left (fun w x => emit (IoLog (MsgSelected x)) w) (l ++ chars s)
       (emit (IoLog MsgSelectedPartitions)
          (with_text tq (with_confirm rest w)))).
Proof.
  intros H. cbn [add_custom].
  unfold bindM at 1. unfold questionary_text.
  cbn [text_answers with_confirm]. rewrite H.
  unfold bindM at 1. cbn [lift iadd].
  unfold bindM at 1. unfold log at 1.
  unfold bindM at 1. rewrite for_each_log. reflexivity.
Qed.

(** C9. In the interactive flow, with the checkbox answered [sel] and one
    custom entry [s] made of decimal digits, [n_part] is [sel] followed by
    one one-character string per digit of [s]: as many new elements as [s]
    has characters. The conversion of line 231 then turns each of them into
    the one-digit integer it spells, so the partition counts are [sel]
    followed by the digits of [s] (and the default 288 when nothing at all
    was selected or entered). *)
Theorem custom_count_split_into_digits
  (fs : gmap string node) (tr : list io_event) (sel : list Z)
  (s : string) (bq : list (option (list Z))) (cq : list (option bool))
  (tq : list (option string)) (rb : Namelist.t -> option Namelist.t) :
  forallb is_digit (list_ascii_of_string s) = true ->
  let w := World fs tr (Some sel :: bq) (Some true :: Some false :: cq)
             (Some s :: tq) rb in
  let picked := map CInt sel ++ chars s in
  let digits := map digit_value (list_ascii_of_string s) in
  fst (main_select [] true w) = Ok (Some picked) /\
  List.length picked = (List.length sel + String.length s)%nat /\
  Forall (fun d => 0 <= d <= 9) digits /\
  main_counts (Some picked) =
    Ok (match sel ++ digits with [] => [288] | l => l end).
Proof.
  intros Hs w picked digits.
  destruct (int_each_digits _ Hs) as [Hint Hrange].
  repeat split.
  - subst w. unfold main_select.
    unfold bindM at 1, log at 1. unfold bindM at 1, log at 1.
    unfold bindM at 1, questionary_checkbox.
    cbn [checkbox_answers emit with_checkbox confirm_answers option_map].
    rewrite (add_custom_turn _ s _ tq) by reflexivity.
    reflexivity.
  - subst picked. unfold chars.
    rewrite length_app, !length_map, length_chars_of_string.
    reflexivity.
  - exact Hrange.
  - assert (He : int_each picked = Ok (sel ++ digits)).
    { subst picked. unfold chars.
      now rewrite int_each_app, int_each_ints, Hint. }
    subst picked digits. unfold chars in *. unfold main_counts.
    destruct sel as [|z sel'];
      [destruct (list_ascii_of_string s) as [|c cs]; [reflexivity|] |];
      cbn [map app] in *; rewrite He; reflexivity.
Qed.

Lemma custom_count_split_into_digits_witness :
  let w := World ∅ [] [Some [72; 144]] [Some true; Some false; Some true]
             [Some "128"] Some in
  fst (main_select [] true w) =
    Ok (Some [CInt 72; CInt 144; CStr "1"; CStr "2"; CStr "8"]) /\
  main_counts (Some [CInt 72; CInt 144; CStr "1"; CStr "2"; CStr "8"]) =
    Ok [72; 144; 1; 2; 8].
Proof.
  intros w.
  destruct (custom_count_split_into_digits ∅ [] [72; 144] "128" []
              [Some true] [] Some eq_refl) as (Hsel & _ & _ & Hcounts).
  split; [exact Hsel | exact Hcounts].
Defined.

(** * Further properties *)

(** ** The setters, one by one and together *)

Lemma od_set_comm {V} (k1 k2 : string) (v1 v2 x : V) (d : list (string * V)) :
  k1 <> k2 ->
  OrderedDict.get k1 d = Some x ->
  OrderedDict.set k1 v1 (OrderedDict.set k2 v2 d) =
  OrderedDict.set k2 v2 (OrderedDict.set k1 v1 d).
Proof.
  intros Hne. induction d as [|[k v] r IH]; simpl; [discriminate|].
  destruct (String.eqb_spec k1 k) as [<-|H1].
  - intros _. destruct (String.eqb_spec k2 k1) as [->|H2]; [congruence|].
    simpl. rewrite String.eqb_refl.
    destruct (String.eqb_spec k2 k1); [congruence|reflexivity].
  - intros Hg. destruct (String.eqb_spec k2 k) as [<-|H2]; simpl.
    + destruct (String.eqb_spec k1 k2); [congruence|].
      now rewrite String.eqb_refl.
    + destruct (String.eqb_spec k1 k); [congruence|].
      destruct (String.eqb_spec k2 k); [congruence|].
      now rewrite IH.
Qed.


(** Setting the mesh path twice keeps the second path only: the first call
    leaves no trace in the document. *)
Theorem set_mesh_last_wins (p q : string) (doc : Namelist.t) :
  bind (MetisNamelist.set_mesh p doc) (MetisNamelist.set_mesh q) =
  MetisNamelist.set_mesh q doc.
Proof.
  unfold MetisNamelist.set_mesh.
  rewrite (setitem2_unfold "paths" "meshpath" (PyStr p) doc),
    (setitem2_unfold "paths" "meshpath" (PyStr q) doc).
  destruct (Namelist.groups_named doc (lower "paths")) as [|g [|g' r]] eqn:E;
    cbn [bind]; try reflexivity.
  rewrite setitem2_unfold, groups_named_set_eq, E. cbn [tail].
  now rewrite !od_set_set.
Qed.

(** On a document that has both groups, the order in which the mesh path
    and the partition count are set does not matter. *)
Theorem setters_commute (p : string) (n : value) (doc : Namelist.t) :
  Namelist.has_group doc "paths" = true ->
  Namelist.has_group doc "machine" = true ->
  bind (MetisNamelist.set_mesh p doc) (MetisNamelist.set_partitioning n) =
  bind (MetisNamelist.set_partitioning n doc) (MetisNamelist.set_mesh p).
Proof.
  unfold Namelist.has_group. rewrite !get_groups_named. intros Hp Hm.
  assert (Hpm : "paths" <> "machine") by discriminate.
  assert (Hmp : "machine" <> "paths") by discriminate.
  destruct (Namelist.groups_named doc "paths") as [|gp rp] eqn:Ep;
    [discriminate|].
  destruct (Namelist.groups_named doc "machine") as [|gm rm] eqn:Em;
    [discriminate|].
  assert (Egp : OrderedDict.get "paths" doc = Some gp)
    by now rewrite get_groups_named, Ep.
  unfold MetisNamelist.set_mesh, MetisNamelist.set_partitioning.
  destruct rp as [|gp' rp], rm as [|gm' rm];
    repeat (rewrite setitem2_unfold;
            change (lower "paths") with "paths";
            change (lower "machine") with "machine";
            rewrite ?groups_named_set_eq,
              ?(groups_named_set_ne _ _ _ _ Hpm),
              ?(groups_named_set_ne _ _ _ _ Hmp), ?Ep, ?Em;
            cbn [bind tail]);
    try reflexivity.
  apply f_equal. rewrite !od_set_set.
  now rewrite (od_set_comm "paths" "machine" _ _ gp doc Hpm Egp).
Qed.

Lemma setters_commute_witness :
  bind (MetisNamelist.set_mesh "/data/mesh1" example_template)
       (MetisNamelist.set_partitioning (PyInt 288)) =
  bind (MetisNamelist.set_partitioning (PyInt 288) example_template)
       (MetisNamelist.set_mesh "/data/mesh1").
Proof.
  apply (setters_commute "/data/mesh1" (PyInt 288) example_template);
    reflexivity.
Defined.

(** ** [prepare_namelist]: what it returns and how it fails *)






Lemma prepared_fields bundled mesh n_part alpha beta gamma use_cavity
  namelist_path w doc' :
  fst (prepare_namelist bundled mesh n_part alpha beta gamma use_cavity
         namelist_path w) = Ok doc' ->
  Namelist.field doc' "paths" "meshpath" = Some (PyStr (path mesh)) /\
  Namelist.field doc' "machine" "n_levels" = Some (PyInt 1) /\
  Namelist.field doc' "machine" "n_part" = Some n_part.
Proof.
  rewrite prepare_namelist_unfold. cbn [fst].
  destruct (template bundled namelist_path w) as [tmpl|]; [|discriminate].
  intros H.
  destruct alpha, beta, gamma, use_cavity; cbv [assignments given app] in H;
    repeat split; last_write H.
Qed.

(** Whatever the template and the options, a document that
    [prepare_namelist] returns holds the mesh path, a level count of 1 and
    the partition count it was given. *)
Theorem prepare_namelist_core (bundled : Namelist.t) (mesh : FesomMesh)
  (n_part : value) (alpha beta gamma : option value) (use_cavity : bool)
  (namelist_path : option string) (w : world) (doc' : Namelist.t) :
  fst (prepare_namelist bundled mesh n_part alpha beta gamma use_cavity
         namelist_path w) = Ok doc' ->
  Namelist.field doc' "paths" "meshpath" = Some (PyStr (path mesh)) /\
  Namelist.field doc' "machine" "n_levels" = Some (PyInt 1) /\
  Namelist.field doc' "machine" "n_part" = Some n_part.
Proof. apply prepared_fields. Qed.

Lemma prepare_namelist_core_witness :
  exists doc',
    fst (prepare_namelist example_template {| path := "/data/mesh1" |}
           (PyInt 288) None None None false None empty_world) = Ok doc' /\
    Namelist.field doc' "paths" "meshpath" = Some (PyStr "/data/mesh1") /\
    Namelist.field doc' "machine" "n_levels" = Some (PyInt 1) /\
    Namelist.field doc' "machine" "n_part" = Some (PyInt 288).
Proof.
  destruct (is_ok_Ok (fst (prepare_namelist example_template
              {| path := "/data/mesh1" |} (PyInt 288) None None None false
              None empty_world)) eq_refl) as [doc' Hp].
  exists doc'. split; [exact Hp|].
  exact (prepare_namelist_core example_template {| path := "/data/mesh1" |}
           (PyInt 288) None None None false None empty_world doc' Hp).
Defined.

(** ** [partition_mesh]: the successful run and the run that never starts *)

(** When the namelist is prepared and the partitioner, started on the disk
    where [namelist.config] holds it, exits with status 0, [partition_mesh]
    returns: the template was loaded, the namelist written, the partitioner
    started once with the bare command, and the success logged with the
    count; the disk is as the partitioner left it. *)
Theorem partition_mesh_success
  (child : string -> gmap string node -> Z * gmap string node)
  (bundled : Namelist.t) (self : MetisPartitioner) (mesh : FesomMesh)
  (n_part : value) (alpha beta gamma : option value) (use_cavity : bool)
  (namelist_path : option string) (w : world) (nml : Namelist.t)
  (fs : gmap string node) :
  fst (prepare_namelist bundled mesh n_part alpha beta gamma use_cavity
         namelist_path w) = Ok nml ->
  child (bin self) (<["namelist.config" := Written nml]> (files w)) =
    (0, fs) ->
  let r := partition_mesh child bundled self mesh n_part alpha beta gamma
             use_cavity namelist_path w in
  fst r = Ok tt /\
  trace (snd r) =
    trace w ++ [load_event namelist_path;
                IoWrite "namelist.config" nml;
                IoLog (MsgNamelistWritten (bin self));
                IoLog (MsgPartitioning (bin self));
                IoSpawn (bin self) 0;
                IoLog (MsgPartitioned (bin self) n_part)] /\
  files (snd r) = fs.
Proof.
  intros Hp Hc r. subst r. rewrite partition_mesh_unfold, Hp.
  cbv zeta. unfold before_spawn. cbn [files emit with_files]. rewrite Hc.
  cbn [fst snd files trace emit with_files Z.eqb].
  repeat split. now rewrite <- !app_assoc.
Qed.

Lemma partition_mesh_success_witness :
  let r := partition_mesh example_child example_template
             {| bin := "fesom_ini" |} {| path := "/data/mesh1" |} (PyInt 288)
             None None None false None empty_world in
  fst r = Ok tt /\ spawns (trace (snd r)) = 1%nat.
Proof.
  intros r.
  destruct (is_ok_Ok (fst (prepare_namelist example_template
              {| path := "/data/mesh1" |} (PyInt 288) None None None false
              None empty_world)) eq_refl) as [nml Hp].
  destruct (partition_mesh_success example_child example_template
              {| bin := "fesom_ini" |} {| path := "/data/mesh1" |} (PyInt 288)
              None None None false None empty_world nml
              (<["namelist.config" := Written nml]> ∅) Hp)
    as (Hr & Ht & _).
  - injection Hp as <-. vm_compute. reflexivity.
  - split; [exact Hr|]. fold r in Ht. rewrite Ht. reflexivity.
Defined.

(** When the namelist cannot be prepared, [partition_mesh] raises the error
    of [prepare_namelist] and has done nothing but try to load the
    template: [namelist.config] is not written and the partitioner is not
    started. *)
Theorem partition_mesh_not_prepared
  (child : string -> gmap string node -> Z * gmap string node)
  (bundled : Namelist.t) (self : MetisPartitioner) (mesh : FesomMesh)
  (n_part : value) (alpha beta gamma : option value) (use_cavity : bool)
  (namelist_path : option string) (w : world) (e : exn) :
  fst (prepare_namelist bundled mesh n_part alpha beta gamma use_cavity
         namelist_path w) = Err e ->
  partition_mesh child bundled self mesh n_part alpha beta gamma use_cavity
    namelist_path w = (Err e, emit (load_event namelist_path) w) /\
  effects (trace (emit (load_event namelist_path) w)) = effects (trace w).
Proof.
  intros Hp. rewrite partition_mesh_unfold, Hp. split; [reflexivity|].
  rewrite effects_emit. destruct namelist_path; cbn; now rewrite app_nil_r.
Qed.

Lemma partition_mesh_not_prepared_witness :
  partition_mesh example_child example_template {| bin := "fesom_ini" |}
    {| path := "/data/mesh1" |} (PyInt 288) None None None false
    (Some "my.nml") empty_world =
  (Err (FileNotFoundError "my.nml"), emit (IoRead "my.nml") empty_world).
Proof.
  apply (partition_mesh_not_prepared example_child example_template
           {| bin := "fesom_ini" |} {| path := "/data/mesh1" |} (PyInt 288)
           None None None false (Some "my.nml") empty_world
           (FileNotFoundError "my.nml")).
  reflexivity.
Defined.

(** ** The runs of [main_run] *)

Lemma run_one_unfold child bundled self mesh_path alpha beta gamma use_cavity
  namelist n w :
  run_one child bundled self mesh_path alpha beta gamma use_cavity namelist
    n w =
  partition_mesh child bundled self {| path := mesh_path |} (PyInt n) alpha
    beta gamma use_cavity namelist (emit (IoLog (MsgPartitionScheme n)) w).
Proof. reflexivity. Qed.




(** [namelist.config] is overwritten on every turn: when [main_run] returns
    and the partitioner never touches that file, the file on disk at the end
    is the one written from the namelist of the last count. (What a reader
    parses from that file is another matter, and not stated here.) *)
Theorem main_run_last_namelist
  (which : string -> option string)
  (child : string -> gmap string node -> Z * gmap string node)
  (bundled : Namelist.t) (mesh_path : string) (pre : list Z) (n : Z)
  (alpha beta gamma : option value) (use_cavity : bool)
  (fesom_ini namelist : option string) (w w' : world) :
  main_run which child bundled mesh_path (pre ++ [n]) alpha beta gamma
    use_cavity fesom_ini namelist w = (Ok tt, w') ->
  (forall cmd fs,
     snd (child cmd fs) !! "namelist.config" = fs !! "namelist.config") ->
  exists nml,
    files w' !! "namelist.config" = Some (Written nml) /\
    Namelist.field nml "machine" "n_part" = Some (PyInt n) /\
    Namelist.field nml "machine" "n_levels" = Some (PyInt 1) /\
    Namelist.field nml "paths" "meshpath" = Some (PyStr mesh_path).
Proof.
  rewrite main_run_unfold.
  destruct (found (which (bin_or_default fesom_ini))); [|discriminate].
  rewrite for_each_app.
  destruct (for_each pre _ w) as [[[]|e] w1]; [|discriminate].
  cbn [for_each]. unfold bindM at 1.
  rewrite run_one_unfold, partition_mesh_unfold.
  destruct (fst (prepare_namelist bundled {| path := mesh_path |} (PyInt n)
                   alpha beta gamma use_cavity namelist
                   (emit (IoLog (MsgPartitionScheme n)) w1)))
    as [nml|e] eqn:Hp; [|discriminate].
  cbv zeta.
  destruct (fst (child _ _) =? 0); [|discriminate].
  intros [= <-] Hkeep. exists nml.
  destruct (prepared_fields _ _ _ _ _ _ _ _ _ _ Hp) as (Hm & Hl & Hn).
  split; [|now repeat split].
  cbn [files emit with_files]. rewrite Hkeep.
  unfold before_spawn. cbn [files emit with_files].
  apply lookup_insert_eq.
Qed.

Lemma main_run_last_namelist_witness :
  exists nml,
    files (snd (main_run which_all (fun _ fs => (0, fs)) example_template
                  "/data/mesh1" ([72; 144] ++ [288]) None None None false
                  None None empty_world)) !! "namelist.config" =
      Some (Written nml) /\
    Namelist.field nml "machine" "n_part" = Some (PyInt 288) /\
    Namelist.field nml "machine" "n_levels" = Some (PyInt 1) /\
    Namelist.field nml "paths" "meshpath" = Some (PyStr "/data/mesh1").
Proof.
  apply (main_run_last_namelist which_all (fun _ fs => (0, fs))
           example_template "/data/mesh1" [72; 144] 288 None None None false
           None None empty_world).
  - vm_compute. reflexivity.
  - reflexivity.
Defined.

(** ** [main] before the first run *)

Lemma main_unfold which child bundled mesh_path n_part interactive rotated
  use_cavity fesom_ini namelist w :
  main which child bundled mesh_path n_part interactive rotated use_cavity
    fesom_ini namelist w =
  bindM (main_select n_part interactive) (fun np =>
    bindM (main_confirm interactive) (fun stop =>
      if (stop : bool) then log MsgExiting
      else main_proceed which child bundled mesh_path rotated use_cavity
             fesom_ini namelist np))
    (after_preamble rotated use_cavity w).
Proof.
  unfold main, after_preamble, main_confirm, main_proceed, angles.
  destruct rotated as [[[a b] g]|], use_cavity; reflexivity.
Qed.

Lemma after_preamble_quiet rotated use_cavity w :
  files (after_preamble rotated use_cavity w) = files w /\
  effects (trace (after_preamble rotated use_cavity w)) = effects (trace w).
Proof.
  unfold after_preamble.
  destruct rotated as [[[a b] g]|], use_cavity; cbn [files emit];
    rewrite ?effects_emit; cbn; rewrite ?app_nil_r; split; reflexivity.
Qed.




(** In interactive mode, when the question whether to proceed is not
    answered with yes (it is answered no, or the prompt is interrupted),
    [main] returns normally and nothing was written or started, whatever
    was selected before. *)
Theorem main_declined
  (which : string -> option string)
  (child : string -> gmap string node -> Z * gmap string node)
  (bundled : Namelist.t) (mesh_path : string) (n_part : list string)
  (rotated : option (value * value * value)) (use_cavity : bool)
  (fesom_ini namelist : option string) (w w1 : world)
  (np : option (list item)) :
  main_select n_part true (after_preamble rotated use_cavity w) =
    (Ok np, w1) ->
  next_confirm w1 <> Some true ->
  let r := main which child bundled mesh_path n_part true rotated use_cavity
             fesom_ini namelist w in
  fst r = Ok tt /\
  files (snd r) = files w /\
  effects (trace (snd r)) = effects (trace w).
Proof.
  intros Hsel Hno r.
  assert (Hr : r = (Ok tt, emit (IoLog MsgExiting)
                             (snd (questionary_confirm w1)))).
  { subst r. rewrite main_unfold. unfold bindM at 1. rewrite Hsel.
    unfold main_confirm, bindM, questionary_confirm, ret, log.
    unfold next_confirm in Hno.
    destruct (confirm_answers w1) as [|[[|]|] q]; try congruence;
      reflexivity. }
  rewrite Hr. cbn [fst snd].
  destruct (no_effect_main_select n_part true
              (after_preamble rotated use_cavity w)) as [Hf He].
  destruct (after_preamble_quiet rotated use_cavity w) as [Hf0 He0].
  destruct (no_effect_confirm w1) as [Hf1 He1].
  rewrite Hsel in Hf, He. cbn [snd] in Hf, He.
  rewrite effects_emit. cbn [files emit is_effect]. rewrite app_nil_r.
  repeat split; congruence.
Qed.

Lemma main_declined_witness :
  let w := World ∅ [] [] [Some false] [] Some in
  let r := main which_all example_child example_template "/data/mesh1"
             ["72"] true None false None None w in
  fst r = Ok tt /\ files (snd r) = ∅ /\ effects (trace (snd r)) = [].
Proof.
  intros w.
  apply (main_declined which_all example_child example_template "/data/mesh1"
           ["72"] None false None None w w (Some [CStr "72"])).
  - reflexivity.
  - discriminate.
Defined.

(** ** The interactive selection, further *)

Lemma text_answers_logged {A} (f : A -> log_msg) (xs : list A) : forall w,
  text_answers (fold_left (fun w x => emit (IoLog (f x)) w) xs w) =
  text_answers w.
Proof. induction xs as [|x r IH]; intros w; [reflexivity|]. cbn. now rewrite IH. Qed.

(** Every custom entry is appended in turn: after the entries [ss], each
    given on a yes to the question whether to add one, and then an answer
    that is not yes, the selection is the starting one followed by the
    characters of all the entries, in order. *)
Theorem add_custom_accumulates (ss : list string) :
  forall (l : list item) (rest : list (option bool))
         (tq : list (option string)) (w : world),
  text_answers w = map Some ss ++ tq ->
  match rest with Some true :: _ => False | _ => True end ->
  fst (add_custom (map (fun _ => Some true) ss ++ rest) (Some l) w) =
  Ok (Some (l ++ List.concat (map chars ss))).
Proof.
  induction ss as [|s r IH]; intros l rest tq w Ht Hrest.
  - cbn [map app List.concat]. rewrite app_nil_r.
    destruct rest as [|[[|]|] q]; try contradiction; reflexivity.
  - cbn [map app List.concat].
    rewrite (add_custom_turn l s _ (map Some r ++ tq) w Ht).
    rewrite (IH (l ++ chars s) rest tq); [now rewrite <- app_assoc| |exact Hrest].
    now rewrite text_answers_logged.
Qed.

Lemma add_custom_accumulates_witness :
  fst (add_custom [Some true; Some true; Some false] (Some [CInt 72])
         (World ∅ [] [] [] [Some "16"; Some "8"] Some)) =
  Ok (Some [CInt 72; CStr "1"; CStr "6"; CStr "8"]).
Proof.
  apply (add_custom_accumulates ["16"; "8"] [CInt 72] [Some false] []
           (World ∅ [] [] [] [Some "16"; Some "8"] Some)); [reflexivity|exact I].
Defined.

Lemma int_other_char c :
  is_digit c = false ->
  int (CStr (String c EmptyString)) = Err (ValueError (String c EmptyString)).
Proof.
  destruct c as [[] [] [] [] [] [] [] []]; intros H;
    try discriminate H; reflexivity.
Qed.

(** A custom entry goes through the conversion only if every one of its
    characters is a decimal digit: the counts it adds are then its digits,
    and otherwise the conversion raises [ValueError] on its first character
    that is not a digit, be it a sign, a space or an underscore. *)
Theorem custom_entry_digits_only (s : string) :
  match int_each (chars s) with
  | Ok zs =>
      forallb is_digit (list_ascii_of_string s) = true /\
      zs = map digit_value (list_ascii_of_string s)
  | Err e =>
      exists pre c post,
        list_ascii_of_string s = pre ++ c :: post /\
        forallb is_digit pre = true /\
        is_digit c = false /\
        e = ValueError (String c EmptyString)
  end.
Proof.
  unfold chars. induction (list_ascii_of_string s) as [|c r IH].
  - now split.
  - cbn [map int_each forallb]. destruct (is_digit c) eqn:Hc.
    + destruct (int_digit_char c Hc) as [-> _]. cbn [bind].
      destruct (int_each _) as [zs|e]; cbn [bind].
      * destruct IH as [-> ->]. now split.
      * destruct IH as (pre & c' & post & -> & Hpre & Hc' & ->).
        exists (c :: pre), c', post. cbn [forallb]. rewrite Hc, Hpre.
        now repeat split.
    + rewrite (int_other_char c Hc). cbn [bind].
      exists [], c, r. now repeat split.
Qed.

(** An empty selection does not mean an empty run: when the checkbox
    prompt is interrupted or left with nothing ticked, and no custom count
    is added, the counts are the default, 288 alone. *)
Theorem empty_selection_defaults (w : world) (a : option (list Z))
  (bq : list (option (list Z))) :
  checkbox_answers w = a :: bq ->
  a = None \/ a = Some [] ->
  next_confirm w <> Some true ->
  exists np w1,
    main_select [] true w = (Ok np, w1) /\
    main_counts np = Ok [288].
Proof.
  intros Hb Ha Hno. unfold main_select.
  unfold bindM at 1, log at 1. unfold bindM at 1, log at 1.
  unfold bindM at 1, questionary_checkbox.
  cbn [checkbox_answers emit]. rewrite Hb.
  cbn [with_checkbox confirm_answers emit]. unfold next_confirm in Hno.
  destruct (confirm_answers w) as [|[[|]|] q]; try congruence;
    cbn [add_custom]; destruct Ha as [-> | ->]; do 2 eexists;
    split; reflexivity.
Qed.

Lemma empty_selection_defaults_witness :
  exists np w1,
    main_select [] true (World ∅ [] [Some []] [Some false] [] Some) =
      (Ok np, w1) /\
    main_counts np = Ok [288].
Proof.
  apply (empty_selection_defaults (World ∅ [] [Some []] [Some false] [] Some)
           (Some []) []); [reflexivity | now right | discriminate].
Defined.

(** ** A prepared namelist as a template *)

Lemma od_set_same {V} (k : string) (v : V) (d : list (string * V)) :
  OrderedDict.get k d = Some v -> OrderedDict.set k v d = d.
Proof.
  induction d as [|[k' v'] r IH]; simpl; [discriminate|].
  destruct (String.eqb_spec k k') as [->|Hk].
  - now intros [= ->].
  - intros H. now rewrite IH.
Qed.

Lemma setitem2_noop grp var v nml :
  Namelist.is_group nml (lower grp) = true ->
  Namelist.field nml (lower grp) (lower var) = Some v ->
  Namelist.setitem2 grp var v nml = Ok nml.
Proof.
  unfold Namelist.field, Namelist.is_group. rewrite setitem2_unfold.
  pose proof (get_groups_named nml (lower grp)) as E.
  destruct (Namelist.groups_named nml (lower grp)) as [|x [|y r]];
    try discriminate.
  cbn [head] in E. rewrite E. intros _ H.
  rewrite (od_set_same _ _ _ H). apply f_equal.
  exact (od_set_same _ _ _ E).
Qed.

Lemma assign_all_noop ops nml :
  Forall (fun op : assignment =>
            Namelist.is_group nml (fst (target op)) = true /\
            Namelist.field nml (fst (target op)) (snd (target op)) =
            Some (snd op)) ops ->
  assign_all ops nml = Ok nml.
Proof.
  induction 1 as [|[[grp var] v] r [Hg Hop] _ IH]; [reflexivity|].
  cbn [assign_all]. cbn in Hg, Hop.
  now rewrite (setitem2_noop _ _ _ _ Hg Hop).
Qed.

(** After a run of assignments, every group assigned to is a group of the
    document. *)
Lemma assign_all_groups ops nml nml' :
  assign_all ops nml = Ok nml' ->
  Forall (fun op => Namelist.is_group nml' (fst (target op)) = true) ops.
Proof.
  intros H. pose proof (assign_all_is_ok ops nml) as Hok.
  rewrite H in Hok. cbn [is_ok] in Hok. symmetry in Hok.
  rewrite forallb_forall in Hok. apply List.Forall_forall.
  intros op Hin. rewrite (assign_all_is_group _ _ _ _ H). now apply Hok.
Qed.

(** A document that [prepare_namelist] returned is a fixed point of it:
    used as the template of a call with the same mesh, count and options
    (for instance a [namelist.config] given back with [--namelist]), it is
    returned unchanged. *)
Theorem prepare_namelist_fixpoint (bundled bundled' : Namelist.t)
  (mesh : FesomMesh) (n_part : value) (alpha beta gamma : option value)
  (use_cavity : bool) (namelist_path namelist_path' : option string)
  (w w' : world) (doc : Namelist.t) :
  fst (prepare_namelist bundled mesh n_part alpha beta gamma use_cavity
         namelist_path w) = Ok doc ->
  template bundled' namelist_path' w' = Some doc ->
  fst (prepare_namelist bundled' mesh n_part alpha beta gamma use_cavity
         namelist_path' w') = Ok doc.
Proof.
  rewrite !prepare_namelist_unfold. cbn [fst].
  destruct (template bundled namelist_path w) as [tmpl|]; [|discriminate].
  intros H ->. apply assign_all_noop.
  pose proof (assign_all_groups _ _ _ H) as Hg.
  destruct alpha, beta, gamma, use_cavity;
    cbv [assignments given app] in H, Hg |- *;
    repeat match goal with
      | Hg : Forall _ (_ :: _) |- Forall _ (_ :: _) =>
          apply List.Forall_cons;
          [split; [exact (List.Forall_inv Hg)|last_write H]
          |apply List.Forall_inv_tail in Hg]
      end; apply List.Forall_nil.
Qed.

Lemma prepare_namelist_fixpoint_witness :
  exists doc,
    fst (prepare_namelist example_template {| path := "/data/mesh1" |}
           (PyInt 288) (Some (PyFloat f10)) None None true None
           empty_world) = Ok doc /\
    fst (prepare_namelist example_template {| path := "/data/mesh1" |}
           (PyInt 288) (Some (PyFloat f10)) None None true
           (Some "namelist.config")
           (World {["namelist.config" := Parses doc]} [] [] [] [] Some)) = Ok doc.
Proof.
  destruct (is_ok_Ok (fst (prepare_namelist example_template
              {| path := "/data/mesh1" |} (PyInt 288) (Some (PyFloat f10))
              None None true None empty_world)) eq_refl) as [doc Hr].
  exists doc. split; [exact Hr|].
  apply (prepare_namelist_fixpoint example_template example_template
           {| path := "/data/mesh1" |} (PyInt 288) (Some (PyFloat f10)) None
           None true None (Some "namelist.config") empty_world
           (World {["namelist.config" := Parses doc]} [] [] [] [] Some) doc Hr).
  unfold template, load. cbn [files]. now rewrite lookup_singleton_eq.
Defined.

(** ** Everything [main] writes *)

Lemma written_app t l : written (t ++ l) = written t ++ written l.
Proof.
  induction t as [|e t IH]; [reflexivity|].
  destruct e; simpl; try exact IH. now rewrite IH.
Qed.

Lemma written_effects t : written (effects t) = written t.
Proof.
  unfold effects. induction t as [|e t IH]; [reflexivity|].
  destruct e; simpl; try exact IH. now rewrite IH.
Qed.

Lemma written_quiet w w' :
  effects (trace w') = effects (trace w) ->
  written (trace w') = written (trace w).
Proof. intros H. now rewrite <- (written_effects (trace w')), H, written_effects. Qed.

Lemma partition_mesh_written child bundled self mesh n_part alpha beta gamma
  use_cavity namelist_path w :
  written (trace (snd (partition_mesh child bundled self mesh n_part alpha
                         beta gamma use_cavity namelist_path w))) =
  written (trace w) ++
  match fst (prepare_namelist bundled mesh n_part alpha beta gamma use_cavity
               namelist_path w) with
  | Ok nml => [("namelist.config", nml)]
  | Err _ => []
  end.
Proof.
  rewrite partition_mesh_unfold.
  destruct (fst (prepare_namelist bundled mesh n_part alpha beta gamma
                   use_cavity namelist_path w)) as [nml|e].
  - cbv zeta. unfold before_spawn.
    destruct (fst (child _ _) =? 0);
      cbn [snd trace emit with_files]; rewrite !written_app;
      destruct namelist_path; cbn; now rewrite ?app_nil_r.
  - cbn [snd trace emit]. rewrite written_app.
    destruct namelist_path; reflexivity.
Qed.

Lemma prepared_angles bundled mesh n_part a b g use_cavity namelist_path w
  doc' :
  fst (prepare_namelist bundled mesh n_part (Some a) (Some b) (Some g)
         use_cavity namelist_path w) = Ok doc' ->
  Namelist.field doc' "geometry" "alphaeuler" = Some a /\
  Namelist.field doc' "geometry" "betaeuler" = Some b /\
  Namelist.field doc' "geometry" "gammaeuler" = Some g.
Proof.
  rewrite prepare_namelist_unfold. cbn [fst].
  destruct (template bundled namelist_path w) as [tmpl|]; [|discriminate].
  intros H.
  destruct use_cavity; cbv [assignments given app] in H;
    repeat split; last_write H.
Qed.

Lemma written_by_main_incl mesh_path rotated counts counts' f :
  incl counts counts' ->
  written_by_main mesh_path rotated counts f ->
  written_by_main mesh_path rotated counts' f.
Proof.
  intros Hi (H1 & H2 & H3 & (n & Hn & H4) & H5).
  repeat split; auto. exists n. split; [now apply Hi|exact H4].
Qed.

Lemma for_each_written child bundled self mesh_path rotated use_cavity
  namelist counts : forall w,
  exists docs,
    written (trace (snd (for_each counts
      (run_one child bundled self mesh_path (angles rotated).1.1
         (angles rotated).1.2 (angles rotated).2 use_cavity namelist) w))) =
      written (trace w) ++ docs /\
    Forall (written_by_main mesh_path rotated counts) docs.
Proof.
  induction counts as [|n r IH]; intros w.
  - exists []. cbn. now rewrite app_nil_r.
  - cbn [for_each]. unfold bindM at 1.
    pose proof (partition_mesh_written child bundled self
                  {| path := mesh_path |} (PyInt n) (angles rotated).1.1
                  (angles rotated).1.2 (angles rotated).2 use_cavity namelist
                  (emit (IoLog (MsgPartitionScheme n)) w)) as Hw.
    rewrite <- run_one_unfold in Hw.
    cbn [trace emit] in Hw. rewrite written_app in Hw. cbn [written] in Hw.
    rewrite app_nil_r in Hw.
    assert (Hone : Forall (written_by_main mesh_path rotated (n :: r))
              match fst (prepare_namelist bundled {| path := mesh_path |}
                           (PyInt n) (angles rotated).1.1 (angles rotated).1.2
                           (angles rotated).2 use_cavity namelist
                           (emit (IoLog (MsgPartitionScheme n)) w)) with
              | Ok nml => [("namelist.config", nml)]
              | Err _ => []
              end).
    { destruct (fst (prepare_namelist _ _ _ _ _ _ _ _ _)) as [nml|e] eqn:Hp;
        [|constructor].
      constructor; [|constructor].
      destruct (prepared_fields _ _ _ _ _ _ _ _ _ _ Hp) as (Hm & Hl & Hn).
      split; [reflexivity|]. split; [exact Hm|]. split; [exact Hl|].
      split; [exists n; split; [now left|exact Hn]|].
      destruct rotated as [[[a b] g]|]; [|exact I].
      exact (prepared_angles _ _ _ _ _ _ _ _ _ _ Hp). }
    destruct (run_one _ _ _ _ _ _ _ _ _ n w) as [[[]|e] w1]; cbn [snd] in Hw.
    + destruct (IH w1) as (docs & Hd & HF).
      eexists. rewrite Hd, Hw, <- app_assoc. split; [reflexivity|].
      apply Forall_app. split; [exact Hone|].
      eapply List.Forall_impl; [|exact HF].
      intros f. apply written_by_main_incl. now apply incl_tl.
    + eexists. cbn [snd]. split; [exact Hw|exact Hone].
Qed.

(** Whatever its arguments and the answers at the terminal, and however it
    ends, the only file [main] writes is [namelist.config] of the working
    directory, and every namelist it writes there holds the mesh path of the
    command line, a level count of 1, one of the counts converted from the
    selection and, under [--rotated], all three angles as given. *)
Theorem main_writes_namelists
  (which : string -> option string)
  (child : string -> gmap string node -> Z * gmap string node)
  (bundled : Namelist.t) (mesh_path : string) (n_part : list string)
  (interactive : bool) (rotated : option (value * value * value))
  (use_cavity : bool) (fesom_ini namelist : option string) (w : world) :
  exists docs,
    written (trace (snd (main which child bundled mesh_path n_part interactive
                           rotated use_cavity fesom_ini namelist w))) =
      written (trace w) ++ docs /\
    (docs = [] \/
     exists np w1 counts,
       main_select n_part interactive (after_preamble rotated use_cavity w) =
         (Ok np, w1) /\
       main_counts np = Ok counts /\
       Forall (written_by_main mesh_path rotated counts) docs).
Proof.
  assert (Hnone : forall w', effects (trace w') = effects (trace w) ->
            exists docs,
              written (trace w') = written (trace w) ++ docs /\
              (docs = [] \/
               exists np w1 counts,
                 main_select n_part interactive
                   (after_preamble rotated use_cavity w) = (Ok np, w1) /\
                 main_counts np = Ok counts /\
                 Forall (written_by_main mesh_path rotated counts) docs)).
  { intros w' H. exists []. rewrite app_nil_r.
    split; [now apply written_quiet|now left]. }
  rewrite main_unfold.
  destruct (after_preamble_quiet rotated use_cavity w) as [_ He0].
  destruct (no_effect_main_select n_part interactive
              (after_preamble rotated use_cavity w)) as [_ He1].
  unfold bindM at 1.
  destruct (main_select n_part interactive _) as [[np|e] w1] eqn:Hsel;
    cbn [snd] in He1; [|apply Hnone; cbn [snd]; congruence].
  assert (Hc : no_effect (main_confirm interactive)).
  { unfold main_confirm. destruct interactive; no_eff. }
  destruct (Hc w1) as [_ He2]. unfold bindM at 1.
  destruct (main_confirm interactive w1) as [[stop|e] w2];
    cbn [snd] in He2; [|apply Hnone; cbn [snd]; congruence].
  destruct stop.
  - apply Hnone. unfold log. cbn [snd]. rewrite effects_emit. cbn.
    rewrite app_nil_r. congruence.
  - unfold main_proceed, bindM, lift, log.
    destruct (main_counts np) as [counts|e] eqn:Hcounts;
      [|apply Hnone; cbn [snd]; congruence].
    rewrite main_run_unfold.
    set (w3 := emit _ (emit _ (emit _ w2))).
    assert (He3 : effects (trace w3) = effects (trace w)).
    { subst w3. rewrite !effects_emit. cbn. rewrite !app_nil_r. congruence. }
    destruct (found _); [|apply Hnone; exact He3].
    destruct (for_each_written child bundled
                {| bin := bin_or_default fesom_ini |} mesh_path rotated
                use_cavity namelist counts w3) as (docs & Hd & HF).
    exists docs. split; [now rewrite Hd, (written_quiet _ _ He3)|].
    right. exists np, w1, counts. now repeat split.
Qed.

(** ** The earlier module *)


Lemma legacy_partition_mesh_unfold child self mesh n_part w :
  Legacy.partition_mesh child self mesh n_part w =
  match fst (f90nml_read "namelist.config" w) with
  | Err e => (Err e, emit (IoRead "namelist.config") w)
  | Ok old =>
      match bind (MetisNamelist.set_mesh (path mesh) old)
                 (MetisNamelist.set_partitioning n_part) with
      | Err e => (Err e, emit (IoRead "namelist.config") w)
      | Ok nml =>
          let w1 := before_spawn self (Some "namelist.config") nml w in
          let out := child (bin self) (files w1) in
          let w2 := emit (IoSpawn (bin self) (fst out))
                      (with_files (snd out) w1) in
          if fst out =? 0
          then (Ok tt, emit (IoLog (MsgPartitioned (bin self) n_part)) w2)
          else (Err (CalledProcessError (fst out) (bin self)), w2)
      end
  end.
Proof.
  unfold Legacy.partition_mesh, Legacy.prepare_namelist, Legacy._NML.
  unfold bindM at 1. unfold bindM at 1. unfold f90nml_read. cbn [fst].
  destruct (match files w !! "namelist.config" with
            | Some n => read_node (reads_back w) "namelist.config" n
            | None => Err (FileNotFoundError "namelist.config")
            end) as [old|e]; [|reflexivity].
  unfold lift.
  destruct (bind (MetisNamelist.set_mesh (path mesh) old)
                 (MetisNamelist.set_partitioning n_part)) as [nml|e];
    [|reflexivity].
  unfold bindM, nml_write, log, subprocess_run, before_spawn, load_event.
  cbn [fst snd files emit with_files].
  destruct (child (bin self) _) as [rc fs].
  cbn [fst snd]. now destruct (rc =? 0).
Qed.

(** The earlier [partition_mesh] has no template of its own: without a
    [namelist.config] in the working directory it raises
    [FileNotFoundError], and has neither written a file nor started the
    partitioner. *)
Theorem legacy_needs_namelist
  (child : string -> gmap string node -> Z * gmap string node)
  (self : MetisPartitioner) (mesh : FesomMesh) (n_part : value) (w : world) :
  files w !! "namelist.config" = None ->
  Legacy.partition_mesh child self mesh n_part w =
    (Err (FileNotFoundError "namelist.config"),
     emit (IoRead "namelist.config") w) /\
  effects (trace (emit (IoRead "namelist.config") w)) = effects (trace w).
Proof.
  intros H. rewrite legacy_partition_mesh_unfold.
  unfold f90nml_read. rewrite H.
  split; [reflexivity|]. rewrite effects_emit. cbn. now rewrite app_nil_r.
Qed.

Lemma legacy_needs_namelist_witness :
  Legacy.partition_mesh example_child {| bin := "python" |}
    {| path := "/data/mesh1" |} (PyInt 288) empty_world =
  (Err (FileNotFoundError "namelist.config"),
   emit (IoRead "namelist.config") empty_world).
Proof.
  apply (legacy_needs_namelist example_child {| bin := "python" |}
           {| path := "/data/mesh1" |} (PyInt 288) empty_world).
  reflexivity.
Defined.



(** ** A whole batch run *)



Lemma spawned_app t l : spawned (t ++ l) = spawned t ++ spawned l.
Proof.
  induction t as [|e t IH]; [reflexivity|].
  destruct e; simpl; try exact IH. now rewrite IH.
Qed.

Lemma partition_mesh_spawned child bundled self mesh n_part alpha beta gamma
  use_cavity namelist_path w :
  exists cmds,
    spawned (trace (snd (partition_mesh child bundled self mesh n_part alpha
                           beta gamma use_cavity namelist_path w))) =
      spawned (trace w) ++ cmds /\
    Forall (eq (bin self)) cmds.
Proof.
  rewrite partition_mesh_unfold.
  destruct (fst (prepare_namelist bundled mesh n_part alpha beta gamma
                   use_cavity namelist_path w)) as [nml|e].
  - exists [bin self]. split; [|now repeat constructor].
    cbv zeta. unfold before_spawn.
    destruct (fst (child _ _) =? 0);
      cbn [snd trace emit with_files]; rewrite !spawned_app;
      destruct namelist_path; cbn; now rewrite ?app_nil_r.
  - exists []. split; [|constructor].
    cbn [snd trace emit]. rewrite spawned_app.
    destruct namelist_path; reflexivity.
Qed.

(** What [main_run] starts is always the name it resolved, the one given
    with [--fesom-ini] or else [fesom_ini]: the path that [shutil.which]
    found for it is checked for and then dropped, and the shell looks the
    name up again on every run. *)
Theorem main_run_starts_resolved_name
  (which : string -> option string)
  (child : string -> gmap string node -> Z * gmap string node)
  (bundled : Namelist.t) (mesh_path : string) (counts : list Z)
  (alpha beta gamma : option value) (use_cavity : bool)
  (fesom_ini namelist : option string) (w : world) :
  exists cmds,
    spawned (trace (snd (main_run which child bundled mesh_path counts alpha
                           beta gamma use_cavity fesom_ini namelist w))) =
      spawned (trace w) ++ cmds /\
    Forall (eq (bin_or_default fesom_ini)) cmds.
Proof.
  rewrite main_run_unfold.
  destruct (found _);
    [|exists []; rewrite app_nil_r; split; [reflexivity|constructor]].
  revert w. induction counts as [|n r IH]; intros w.
  - exists []. rewrite app_nil_r. split; [reflexivity|constructor].
  - cbn [for_each]. unfold bindM at 1.
    destruct (partition_mesh_spawned child bundled
                {| bin := bin_or_default fesom_ini |} {| path := mesh_path |}
                (PyInt n) alpha beta gamma use_cavity namelist
                (emit (IoLog (MsgPartitionScheme n)) w)) as (c1 & H1 & F1).
    rewrite <- run_one_unfold in H1.
    cbn [trace emit] in H1. rewrite spawned_app in H1. cbn [spawned] in H1.
    rewrite app_nil_r in H1. cbn [bin] in F1.
    destruct (run_one _ _ _ _ _ _ _ _ _ n w) as [[[]|e] w1]; cbn [snd] in H1.
    + destruct (IH w1) as (c2 & H2 & F2).
      exists (c1 ++ c2). rewrite H2, H1, <- app_assoc.
      split; [reflexivity|]. apply Forall_app. now split.
    + exists c1. cbn [snd]. now split.
Qed.
